(** * xtensor-blas: array expressions dispatched to BLAS and LAPACK kernels

    A shallow embedding of [xblas.hpp] and [xlapack.hpp].  The wrappers of
    these two headers compute no number themselves: they read shapes and
    strides of array expressions, allocate scratch vectors, call a kernel of
    the compute backend (cxxblas / cxxlapack) and hand its status back.  The
    embedding therefore keeps what the wrappers decide: the arguments of
    every kernel call, the order of the calls, the exceptions thrown and the
    values returned.  The backend is a parameter. *)

From Stdlib Require Import ZArith List String Ascii Bool Lia QArith.
Import ListNotations.
Local Open Scope Z_scope.

(** ** Build configuration and machine integers *)

(** [XBLAS_INDEX] and [BLAS_IDX] are macros of [xblas_config.hpp], which is
    not among the sources, and [XTENSOR_ASSERT] is switched on and off by
    the build.  The return statements of [detail::init_u_vt] build pairs
    from the literal [1] and from [XBLAS_INDEX] values and agree on one
    deduced return type only when [XBLAS_INDEX] is [int]; the widths are
    parameters. *)
Record config := {
  int_bits : Z;          (* width of int, the type of XBLAS_INDEX *)
  blas_idx_bits : Z;     (* width of BLAS_IDX *)
  size_bits : Z;         (* width of std::size_t *)
  enable_assert : bool   (* whether XTENSOR_ASSERT checks its condition *)
}.

Module Ints.

(** Conversion to a signed type of [w] bits (two's complement). *)
Definition wrap_signed (w z : Z) : Z := (z + 2 ^ (w - 1)) mod 2 ^ w - 2 ^ (w - 1).

(** Conversion to an unsigned type of [w] bits. *)
Definition wrap_unsigned (w z : Z) : Z := z mod 2 ^ w.

Definition fits_signed (w z : Z) : Prop := - 2 ^ (w - 1) <= z < 2 ^ (w - 1).

(** [(std::size_t) x] for a floating-point [x]: the fractional part is
    discarded; a value the target type cannot hold has no defined result. *)
Definition truncate (x : Q) : Z := Z.quot (Qnum x) (Zpos (Qden x)).

Definition float_to_unsigned (w : Z) (x : Q) : option Z :=
  let t := truncate x in
  if (0 <=? t) && (t <? 2 ^ w) then Some t else None.

End Ints.

(** ** Array expressions *)

Inductive layout_type := row_major | column_major | dynamic.

Definition layout_eqb (a b : layout_type) : bool :=
  match a, b with
  | row_major, row_major | column_major, column_major | dynamic, dynamic => true
  | _, _ => false
  end.

(** What a wrapper reads of an evaluated array expression; the elements stay
    in the memory the backend works on. *)
Record xexpression := {
  shape : list Z;
  strides : list Z;
  layout : layout_type;
  raw_data_offset : Z
}.

Definition dimension (e : xexpression) : Z := Z.of_nat (List.length (shape e)).

(** [size()]: the number of elements. *)
Definition size (e : xexpression) : Z := fold_right Z.mul 1 (shape e).

(** [front()], [back()] and [operator[]] of a shape or of strides; they have
    no defined result outside the sequence. *)
Definition front {A} (l : list A) : option A := hd_error l.

Fixpoint back {A} (l : list A) : option A :=
  match l with
  | [] => None
  | [x] => Some x
  | _ :: l' => back l'
  end.

Definition at_ {A} (l : list A) (i : nat) : option A := nth_error l i.

(** [uvector<T>]: an uninitialised scratch vector, known by its length. *)
Record uvector := { usize : Z }.

(** The array library (xtensor) is a collaborator: what [resize] and the
    default constructor of a container give is taken as a parameter. *)
Record array_library := {
  compute_strides : layout_type -> list Z -> list Z;
  default_container : nat -> layout_type -> xexpression
}.

Definition resize (xt : array_library) (e : xexpression) (sh : list Z) : xexpression :=
  {| shape := sh;
     strides := compute_strides xt (layout e) sh;
     layout := layout e;
     raw_data_offset := raw_data_offset e |}.

(** ** Scalars *)

Record complex (F : Type) := { re : F; im : F }.
Arguments re {F} _.
Arguments im {F} _.

(** [std::real] is defined on real and on complex element types. *)
Class Scalar (T : Type) := std_real : T -> Q.

(** A real element type also converts to an integer by itself. *)
Class Arithmetic (T : Type) := to_real : T -> Q.

#[export] Instance Q_Scalar : Scalar Q := fun x => x.
#[export] Instance Q_Arithmetic : Arithmetic Q := fun x => x.
#[export] Instance complex_Scalar : Scalar (complex Q) := fun z => re z.

(** ** Kernel calls *)

Inductive StorageOrder := RowMajor | ColMajor.
Inductive Transpose := NoTrans | Trans.

Section Calls.

Context {T : Type}.

(** One constructor per backend routine, with the arguments in the order of
    the call.  A pointer argument is given by the descriptor of the
    container it points into. *)
Inductive call :=
| cxx_gemm (order : StorageOrder) (transA transB : Transpose) (m n k : Z)
    (alpha : T) (A : xexpression) (ldA : Z) (B : xexpression) (ldB : Z)
    (beta : T) (C : xexpression) (ldC : Z)
| cxx_gesv (n nrhs : Z) (A : xexpression) (ldA : Z) (piv : uvector)
    (B : xexpression) (ldB : Z)
| cxx_getrf (m n : Z) (A : xexpression) (ldA : Z) (piv : uvector)
| cxx_orgqr (m n k : Z) (A : xexpression) (ldA : Z) (tau : xexpression)
    (work : uvector) (lWork : Z)
| cxx_ungqr (m n k : Z) (A : xexpression) (ldA : Z) (tau : xexpression)
    (work : uvector) (lWork : Z)
| cxx_geqrf (m n : Z) (A : xexpression) (ldA : Z) (tau : xexpression)
    (work : uvector) (lWork : Z)
| cxx_gesdd (jobz : ascii) (m n : Z) (A : xexpression) (ldA : Z)
    (s u : xexpression) (ldU : Z) (vt : xexpression) (ldVT : Z)
    (work : uvector) (lWork : Z) (rwork : option uvector) (iwork : uvector)
| cxx_potrf (uplo : ascii) (n : Z) (A : xexpression) (ldA : Z)
| cxx_getri (n : Z) (A : xexpression) (ldA : Z) (piv : uvector)
    (work : uvector) (lWork : Z)
| cxx_geev (jobvl jobvr : ascii) (n : Z) (A : xexpression) (ldA : Z)
    (w : xexpression) (wi : option xexpression)
    (VL : xexpression) (ldVL : Z) (VR : xexpression) (ldVR : Z)
    (work : uvector) (lWork : Z) (rwork : option uvector)
| cxx_syevd (jobz uplo : ascii) (n : Z) (A : xexpression) (ldA : Z)
    (w : xexpression) (work : uvector) (lWork : Z)
    (iwork : uvector) (liWork : Z)
| cxx_heevd (jobz uplo : ascii) (n : Z) (A : xexpression) (ldA : Z)
    (w : xexpression) (work : uvector) (lWork : Z)
    (rwork : uvector) (lrWork : Z) (iwork : uvector) (liWork : Z)
| cxx_gelsd (m n nrhs : Z) (A : xexpression) (ldA : Z)
    (B : xexpression) (ldB : Z) (s : xexpression) (rcond : Q)
    (work : uvector) (lWork : Z) (rwork : option uvector) (iwork : uvector).

(** What a wrapper reads after a call: the status, and the first slot of
    each scratch vector as the kernel left it. *)
Record reply := {
  info : Z;
  work0 : T;
  rwork0 : Q;
  iwork0 : Z
}.

(** The scratch vector and the scratch-size argument of a call. *)
Definition work_of (c : call) : option uvector :=
  match c with
  | cxx_orgqr _ _ _ _ _ _ w _ | cxx_ungqr _ _ _ _ _ _ w _
  | cxx_geqrf _ _ _ _ _ w _ | cxx_getri _ _ _ _ w _
  | cxx_gesdd _ _ _ _ _ _ _ _ _ _ w _ _ _
  | cxx_geev _ _ _ _ _ _ _ _ _ _ _ w _ _
  | cxx_syevd _ _ _ _ _ _ w _ _ _
  | cxx_heevd _ _ _ _ _ _ w _ _ _ _ _
  | cxx_gelsd _ _ _ _ _ _ _ _ _ w _ _ _ => Some w
  | _ => None
  end.

Definition lwork_of (c : call) : option Z :=
  match c with
  | cxx_orgqr _ _ _ _ _ _ _ l | cxx_ungqr _ _ _ _ _ _ _ l
  | cxx_geqrf _ _ _ _ _ _ l | cxx_getri _ _ _ _ _ l
  | cxx_gesdd _ _ _ _ _ _ _ _ _ _ _ l _ _
  | cxx_geev _ _ _ _ _ _ _ _ _ _ _ _ l _
  | cxx_syevd _ _ _ _ _ _ _ l _ _
  | cxx_heevd _ _ _ _ _ _ _ l _ _ _ _
  | cxx_gelsd _ _ _ _ _ _ _ _ _ _ l _ _ => Some l
  | _ => None
  end.

(** A call is a size probe when its scratch-size argument is [-1]. *)
Definition is_probe (c : call) : bool :=
  match lwork_of c with
  | Some l => l =? -1
  | None => false
  end.

End Calls.

Arguments call : clear implicits.
Arguments reply : clear implicits.

(** ** Wrappers as computations

    A wrapper runs on the memory the backend works on (the [World], which the
    wrapper itself never looks into) and a log of the kernel calls made so
    far, each with what the wrapper read back from it.  It ends by returning
    a value or by leaving with an exception. *)

Inductive failure :=
| runtime_error (what : string)      (* throw std::runtime_error(what) *)
| assertion_failure                  (* a failed XTENSOR_ASSERT *)
| ill_formed (what : string)         (* a failed static_assert *)
| undefined_behaviour.               (* an access the language leaves undefined *)

Inductive outcome (A : Type) :=
| Returned (a : A)
| Raised (f : failure).
Arguments Returned {A} a.
Arguments Raised {A} f.

Definition M (S A : Type) : Type := S -> outcome A * S.

Definition ret {S A} (a : A) : M S A := fun s => (Returned a, s).

Definition bind {S A B} (c : M S A) (k : A -> M S B) : M S B :=
  fun s =>
    match c s with
    | (Returned a, s') => k a s'
    | (Raised f, s') => (Raised f, s')
    end.

Definition throw {S A} (f : failure) : M S A := fun s => (Raised f, s).

Definition lift {S A} (o : option A) : M S A :=
  match o with
  | Some a => ret a
  | None => throw undefined_behaviour
  end.

Declare Scope wrapper_scope.
Delimit Scope wrapper_scope with wrapper.
Notation "x <- c ;; k" := (bind c (fun x => k))
  (at level 61, c at next level, right associativity) : wrapper_scope.
Notation "' p <- c ;; k" := (bind c (fun x => match x with p => k end))
  (at level 61, p pattern, c at next level, right associativity) : wrapper_scope.
Notation "c ;; k" := (bind c (fun _ => k))
  (at level 61, right associativity) : wrapper_scope.
Local Open Scope wrapper_scope.

Definition truthy (c : ascii) : bool := negb (c =? zero)%char.

(** [bool] converted to [char], as a caller of [gemm] passes its flags. *)
Definition char_of_bool (b : bool) : ascii := if b then one else zero.

Section Wrappers.

Context {T World : Type}.
Context {T_scalar : Scalar T} {T_arithmetic : Arithmetic T}.
Variable cfg : config.
Variable xt : array_library.

Definition event : Type := call T * reply T.
Definition machine : Type := World * list event.

(** The backend: a kernel call changes the memory and leaves a status. *)
Variable kernel : call T -> World -> reply T * World.

Definition invoke (c : call T) : M machine (reply T) :=
  fun '(w, log) =>
    let (r, w') := kernel c w in
    (Returned r, (w', log ++ [(c, r)])).

Definition XTENSOR_ASSERT (b : bool) : M machine unit :=
  if enable_assert cfg && negb b then throw assertion_failure else ret tt.

Definition to_index (z : Z) : Z := Ints.wrap_signed (int_bits cfg) z.
Definition to_blas_idx (z : Z) : Z := Ints.wrap_signed (blas_idx_bits cfg) z.
Definition to_size_t (z : Z) : Z := Ints.wrap_unsigned (size_bits cfg) z.
Definition float_to_size_t (x : Q) : option Z := Ints.float_to_unsigned (size_bits cfg) x.

(** *** xlapack.hpp *)

Definition gesv (A b : xexpression) : M machine Z :=
  XTENSOR_ASSERT (dimension A =? 2) ;;
  XTENSOR_ASSERT (layout_eqb (layout A) column_major) ;;
  XTENSOR_ASSERT (dimension b <=? 2) ;;
  XTENSOR_ASSERT (layout_eqb (layout b) column_major) ;;
  A0 <- lift (at_ (shape A) 0) ;;
  let piv := {| usize := A0 |} in
  b_dim <- (if 1 <? dimension b
            then sb <- lift (back (shape b)) ;; ret (to_index sb)
            else ret 1) ;;
  b_stride <- (if b_dim =? 1
               then sf <- lift (front (shape b)) ;; ret (to_index sf)
               else tb <- lift (back (strides b)) ;; ret (to_index tb)) ;;
  A_s1 <- lift (at_ (strides A) 1) ;;
  r <- invoke (cxx_gesv (to_index A0) b_dim A (to_index A_s1) piv b b_stride) ;;
  ret (info r).

Definition getrf (A : xexpression) (piv : uvector) : M machine Z :=
  XTENSOR_ASSERT (dimension A =? 2) ;;
  XTENSOR_ASSERT (layout_eqb (layout A) column_major) ;;
  A0 <- lift (at_ (shape A) 0) ;;
  A1 <- lift (at_ (shape A) 1) ;;
  A_sb <- lift (back (strides A)) ;;
  r <- invoke (cxx_getrf (to_index A0) (to_index A1) A (to_index A_sb) piv) ;;
  ret (info r).

Definition orgqr (A tau : xexpression) (n : Z) : M machine Z :=
  let work := {| usize := 1 |} in
  n <- (if n =? -1 then A1 <- lift (at_ (shape A) 1) ;; ret (to_index A1) else ret n) ;;
  A0 <- lift (at_ (shape A) 0) ;;
  A_sb <- lift (back (strides A)) ;;
  r <- invoke (cxx_orgqr (to_index A0) n (to_index (size tau)) A (to_index A_sb)
                 tau work (to_index (-1))) ;;
  if negb (info r =? 0)
  then throw (runtime_error "Could not find workspace size for orgqr.")
  else
    lw <- lift (float_to_size_t (to_real (work0 r))) ;;
    let work := {| usize := lw |} in
    r <- invoke (cxx_orgqr (to_index A0) n (to_index (size tau)) A (to_index A_sb)
                   tau work (to_index (usize work))) ;;
    ret (info r).

Definition ungqr (A tau : xexpression) (n : Z) : M machine Z :=
  let work := {| usize := 1 |} in
  n <- (if n =? -1 then A1 <- lift (at_ (shape A) 1) ;; ret (to_index A1) else ret n) ;;
  A0 <- lift (at_ (shape A) 0) ;;
  A_sb <- lift (back (strides A)) ;;
  r <- invoke (cxx_ungqr (to_index A0) n (to_index (size tau)) A (to_index A_sb)
                 tau work (to_index (-1))) ;;
  if negb (info r =? 0)
  then throw (runtime_error "Could not find workspace size for ungqr.")
  else
    lw <- lift (float_to_size_t (std_real (work0 r))) ;;
    let work := {| usize := lw |} in
    r <- invoke (cxx_ungqr (to_index A0) n (to_index (size tau)) A (to_index A_sb)
                   tau work (to_index (usize work))) ;;
    ret (info r).

Definition geqrf (A tau : xexpression) : M machine Z :=
  XTENSOR_ASSERT (dimension A =? 2) ;;
  XTENSOR_ASSERT (layout_eqb (layout A) column_major) ;;
  let work := {| usize := 1 |} in
  A0 <- lift (at_ (shape A) 0) ;;
  A1 <- lift (at_ (shape A) 1) ;;
  A_sb <- lift (back (strides A)) ;;
  r <- invoke (cxx_geqrf (to_index A0) (to_index A1) A (to_index A_sb)
                 tau work (to_index (-1))) ;;
  if negb (info r =? 0)
  then throw (runtime_error "Could not find workspace size for geqrf.")
  else
    lw <- lift (float_to_size_t (std_real (work0 r))) ;;
    let work := {| usize := lw |} in
    r <- invoke (cxx_geqrf (to_index A0) (to_index A1) A (to_index A_sb)
                   tau work (to_index (usize work))) ;;
    ret (info r).

(** [detail::select_stride] *)
Definition select_stride (stride : Z) : Z :=
  if stride =? 0 then 1 else to_index stride.

(** [detail::init_u_vt]: [u] and [vt] are passed by reference and come back
    resized; the pair of leading strides is the value returned.  There is no
    result when [strides().back()] is taken of empty strides. *)
Definition init_u_vt (u vt : xexpression) (jobz : ascii) (m n : Z)
  : option (xexpression * xexpression * (Z * Z)) :=
  let u := if (jobz =? "A")%char || ((jobz =? "O")%char && (m <? n))
           then resize xt u [m; m] else u in
  let vt := if (jobz =? "A")%char || ((jobz =? "O")%char && (n <=? m))
            then resize xt vt [n; n] else vt in
  let u := if (jobz =? "S")%char then resize xt u [m; Z.min m n] else u in
  let vt := if (jobz =? "S")%char then resize xt vt [Z.min m n; n] else vt in
  if (jobz =? "N")%char then Some (u, vt, (1, 1))
  else if (jobz =? "O")%char then
    if n <=? m
    then match back (strides vt) with
         | Some sv => Some (u, vt, (1, select_stride sv))
         | None => None
         end
    else match back (strides u) with
         | Some su => Some (u, vt, (select_stride su, 1))
         | None => None
         end
  else
    match back (strides u), back (strides vt) with
    | Some su, Some sv => Some (u, vt, (select_stride su, select_stride sv))
    | _, _ => None
    end.

(** The real [gesdd]; the tuple returned is [(info, u, s, vt)]. *)
Definition gesdd (A : xexpression) (jobz : ascii)
  : M machine (Z * xexpression * xexpression * xexpression) :=
  XTENSOR_ASSERT (dimension A =? 2) ;;
  XTENSOR_ASSERT (layout_eqb (layout A) column_major) ;;
  let work := {| usize := 1 |} in
  m <- lift (at_ (shape A) 0) ;;
  n <- lift (at_ (shape A) 1) ;;
  let s := resize xt (default_container xt 1 column_major) [Z.max 1 (Z.min m n)] in
  let u := default_container xt 2 column_major in
  let vt := default_container xt 2 column_major in
  '(u, vt, (u_stride, vt_stride)) <- lift (init_u_vt u vt jobz m n) ;;
  A_sb <- lift (back (strides A)) ;;
  let A_stride := select_stride A_sb in
  let iwork := {| usize := to_size_t (8 * Z.min m n) |} in
  r <- invoke (cxx_gesdd jobz (to_index m) (to_index n) A A_stride s u u_stride
                 vt vt_stride work (to_index (-1)) None iwork) ;;
  if negb (info r =? 0)
  then throw (runtime_error "Could not find workspace size for real gesdd.")
  else
    lw <- lift (float_to_size_t (to_real (work0 r))) ;;
    let work := {| usize := lw |} in
    r <- invoke (cxx_gesdd jobz (to_index m) (to_index n) A A_stride s u u_stride
                   vt vt_stride work (to_index (usize work)) None iwork) ;;
    ret (info r, u, s, vt).

(** The complex [gesdd]. *)
Definition gesdd_complex (A : xexpression) (jobz : ascii)
  : M machine (Z * xexpression * xexpression * xexpression) :=
  XTENSOR_ASSERT (dimension A =? 2) ;;
  XTENSOR_ASSERT (layout_eqb (layout A) column_major) ;;
  m <- lift (at_ (shape A) 0) ;;
  n <- lift (at_ (shape A) 1) ;;
  let work := {| usize := 1 |} in
  let iwork := {| usize := to_size_t (8 * Z.min m n) |} in
  let mx := Z.max m n in
  let mn := Z.min m n in
  let rwork :=
    if (jobz =? "N")%char then {| usize := to_size_t (5 * mn) |}
    else if mn <? mx then {| usize := to_size_t (5 * mn * mn + 5 * mn) |}
    else {| usize := Z.max (to_size_t (5 * mn * mn + 5 * mn))
                           (to_size_t (2 * mx * mn + 2 * mn * mn + mn)) |} in
  let s := resize xt (default_container xt 1 column_major) [Z.max 1 (Z.min m n)] in
  let u := default_container xt 2 column_major in
  let vt := default_container xt 2 column_major in
  '(u, vt, (u_stride, vt_stride)) <- lift (init_u_vt u vt jobz m n) ;;
  A_sb <- lift (back (strides A)) ;;
  let A_stride := select_stride A_sb in
  r <- invoke (cxx_gesdd jobz (to_index m) (to_index n) A A_stride s u u_stride
                 vt vt_stride work (to_index (-1)) (Some rwork) iwork) ;;
  if negb (info r =? 0)
  then throw (runtime_error "Could not find workspace size for complex gesdd.")
  else
    lw <- lift (float_to_size_t (std_real (work0 r))) ;;
    let work := {| usize := lw |} in
    r <- invoke (cxx_gesdd jobz (to_index m) (to_index n) A A_stride s u u_stride
                   vt vt_stride work (to_index (usize work)) (Some rwork) iwork) ;;
    ret (info r, u, s, vt).

Definition potr (A : xexpression) (uplo : ascii) : M machine Z :=
  XTENSOR_ASSERT (dimension A =? 2) ;;
  XTENSOR_ASSERT (layout_eqb (layout A) column_major) ;;
  A0 <- lift (at_ (shape A) 0) ;;
  A_sb <- lift (back (strides A)) ;;
  r <- invoke (cxx_potrf uplo (to_index A0) A (to_index A_sb)) ;;
  ret (info r).

Definition getri (A : xexpression) (piv : uvector) : M machine Z :=
  XTENSOR_ASSERT (dimension A =? 2) ;;
  XTENSOR_ASSERT (layout_eqb (layout A) column_major) ;;
  let work := {| usize := 1 |} in
  A0 <- lift (at_ (shape A) 0) ;;
  A_sb <- lift (back (strides A)) ;;
  r <- invoke (cxx_getri (to_index A0) A (to_index A_sb) piv work (-1)) ;;
  if 0 <? info r
  then throw (runtime_error "Could not find workspace size for getri.")
  else
    lw <- lift (float_to_size_t (to_real (work0 r))) ;;
    let work := {| usize := lw |} in
    r <- invoke (cxx_getri (to_index A0) A (to_index A_sb) piv work
                   (to_index (usize work))) ;;
    ret (info r).

(** The real [geev], with the eigenvalues split into [wr] and [wi]. *)
Definition geev (A : xexpression) (jobvl jobvr : ascii)
    (wr wi VL VR : xexpression) : M machine Z :=
  XTENSOR_ASSERT (dimension A =? 2) ;;
  XTENSOR_ASSERT (layout_eqb (layout A) column_major) ;;
  N <- lift (at_ (shape A) 0) ;;
  let work := {| usize := 1 |} in
  A_sb <- lift (back (strides A)) ;;
  VL_sb <- lift (back (strides VL)) ;;
  VR_sb <- lift (back (strides VR)) ;;
  r <- invoke (cxx_geev jobvl jobvr (to_index N) A (to_index A_sb) wr (Some wi)
                 VL (to_index VL_sb) VR (to_index VR_sb) work (-1) None) ;;
  if negb (info r =? 0)
  then throw (runtime_error "Could not find workspace size for geev.")
  else
    lw <- lift (float_to_size_t (to_real (work0 r))) ;;
    let work := {| usize := lw |} in
    r <- invoke (cxx_geev jobvl jobvr (to_index N) A (to_index A_sb) wr (Some wi)
                   VL (to_index VL_sb) VR (to_index VR_sb) work
                   (to_index (usize work)) None) ;;
    ret (info r).

Definition syevd (A : xexpression) (jobz uplo : ascii) (w : xexpression)
  : M machine Z :=
  XTENSOR_ASSERT (dimension A =? 2) ;;
  XTENSOR_ASSERT (layout_eqb (layout A) column_major) ;;
  N <- lift (at_ (shape A) 0) ;;
  let work := {| usize := 1 |} in
  let iwork := {| usize := 1 |} in
  A_sb <- lift (back (strides A)) ;;
  r <- invoke (cxx_syevd jobz uplo (to_index N) A (to_index A_sb) w
                 work (to_index (-1)) iwork (to_index (-1))) ;;
  if negb (info r =? 0)
  then throw (runtime_error "Could not find workspace size for syevd.")
  else
    lw <- lift (float_to_size_t (to_real (work0 r))) ;;
    let work := {| usize := lw |} in
    let iwork := {| usize := to_size_t (iwork0 r) |} in
    r <- invoke (cxx_syevd jobz uplo (to_index N) A (to_index A_sb) w
                   work (to_index (usize work)) iwork (to_index (usize iwork))) ;;
    ret (info r).

(** The complex [geev], with one vector [w] of eigenvalues. *)
Definition geev_complex (A : xexpression) (jobvl jobvr : ascii)
    (w VL VR : xexpression) : M machine Z :=
  XTENSOR_ASSERT (dimension A =? 2) ;;
  XTENSOR_ASSERT (layout_eqb (layout A) column_major) ;;
  N <- lift (at_ (shape A) 0) ;;
  let work := {| usize := 1 |} in
  let rwork := {| usize := to_size_t (2 * N) |} in
  A_sb <- lift (back (strides A)) ;;
  VL_sb <- lift (back (strides VL)) ;;
  VR_sb <- lift (back (strides VR)) ;;
  r <- invoke (cxx_geev jobvl jobvr (to_index N) A (to_index A_sb) w None
                 VL (to_index VL_sb) VR (to_index VR_sb) work (-1) (Some rwork)) ;;
  if negb (info r =? 0)
  then throw (runtime_error "Could not find workspace size for geev.")
  else
    lw <- lift (float_to_size_t (std_real (work0 r))) ;;
    let work := {| usize := lw |} in
    r <- invoke (cxx_geev jobvl jobvr (to_index N) A (to_index A_sb) w None
                   VL (to_index VL_sb) VR (to_index VR_sb) work
                   (to_index (usize work)) (Some rwork)) ;;
    ret (info r).

Definition heevd (A : xexpression) (jobz uplo : ascii) (w : xexpression)
  : M machine Z :=
  XTENSOR_ASSERT (dimension A =? 2) ;;
  XTENSOR_ASSERT (layout_eqb (layout A) column_major) ;;
  N <- lift (at_ (shape A) 0) ;;
  let work := {| usize := 1 |} in
  let rwork := {| usize := 1 |} in
  let iwork := {| usize := 1 |} in
  A_sb <- lift (back (strides A)) ;;
  r <- invoke (cxx_heevd jobz uplo (to_index N) A (to_index A_sb) w
                 work (to_index (-1)) rwork (to_index (-1))
                 iwork (to_index (-1))) ;;
  if negb (info r =? 0)
  then throw (runtime_error "Could not find workspace size for heevd.")
  else
    lw <- lift (float_to_size_t (std_real (work0 r))) ;;
    let work := {| usize := lw |} in
    lrw <- lift (float_to_size_t (rwork0 r)) ;;
    let rwork := {| usize := lrw |} in
    let iwork := {| usize := to_size_t (iwork0 r) |} in
    r <- invoke (cxx_heevd jobz uplo (to_index N) A (to_index A_sb) w
                   work (to_index (usize work)) rwork (to_index (usize rwork))
                   iwork (to_index (usize iwork))) ;;
    ret (info r).

(** The real [gelsd]; [rank] is written by the kernel and stays in memory. *)
Definition gelsd (A b s : xexpression) (rcond : Q) : M machine Z :=
  let work := {| usize := 1 |} in
  let iwork := {| usize := 1 |} in
  b_dim <- (if 1 <? dimension b
            then sb <- lift (back (shape b)) ;; ret (to_index sb)
            else ret 1) ;;
  b_stride <- (if b_dim =? 1
               then sf <- lift (front (shape b)) ;; ret (to_index sf)
               else tb <- lift (back (strides b)) ;; ret (to_index tb)) ;;
  A0 <- lift (at_ (shape A) 0) ;;
  A1 <- lift (at_ (shape A) 1) ;;
  A_sb <- lift (back (strides A)) ;;
  r <- invoke (cxx_gelsd (to_index A0) (to_index A1) b_dim A (to_index A_sb)
                 b b_stride s rcond work (to_index (-1)) None iwork) ;;
  if negb (info r =? 0)
  then throw (runtime_error "Could not find workspace size for gelsd.")
  else
    lw <- lift (float_to_size_t (to_real (work0 r))) ;;
    let work := {| usize := lw |} in
    let iwork := {| usize := to_size_t (iwork0 r) |} in
    r <- invoke (cxx_gelsd (to_index A0) (to_index A1) b_dim A (to_index A_sb)
                   b b_stride s rcond work (to_index (usize work)) None iwork) ;;
    ret (info r).

(** The complex [gelsd]. *)
Definition gelsd_complex (A b s : xexpression) (rcond : Q) : M machine Z :=
  let work := {| usize := 1 |} in
  let rwork := {| usize := 1 |} in
  let iwork := {| usize := 1 |} in
  b_dim <- (if 1 <? dimension b
            then sb <- lift (back (shape b)) ;; ret (to_index sb)
            else ret 1) ;;
  b_stride <- (if b_dim =? 1
               then sf <- lift (front (shape b)) ;; ret (to_index sf)
               else tb <- lift (back (strides b)) ;; ret (to_index tb)) ;;
  A0 <- lift (at_ (shape A) 0) ;;
  A1 <- lift (at_ (shape A) 1) ;;
  A_sb <- lift (back (strides A)) ;;
  r <- invoke (cxx_gelsd (to_index A0) (to_index A1) b_dim A (to_index A_sb)
                 b b_stride s rcond work (to_index (-1)) (Some rwork) iwork) ;;
  if negb (info r =? 0)
  then throw (runtime_error "Could not find workspace size for gelsd.")
  else
    lw <- lift (float_to_size_t (std_real (work0 r))) ;;
    let work := {| usize := lw |} in
    lrw <- lift (float_to_size_t (rwork0 r)) ;;
    let rwork := {| usize := lrw |} in
    let iwork := {| usize := to_size_t (iwork0 r) |} in
    r <- invoke (cxx_gelsd (to_index A0) (to_index A1) b_dim A (to_index A_sb)
                   b b_stride s rcond work (to_index (usize work)) (Some rwork)
                   iwork) ;;
    ret (info r).

(** *** xblas.hpp *)

Definition list_eqb (a b : list Z) : bool :=
  (List.length a =? List.length b)%nat && forallb (fun p => fst p =? snd p) (combine a b).

(** Modelled from the spec: [view_eval] of [xblas_utils.hpp], which is not
    among the sources.  It takes an array expression and a required storage
    order and returns a concrete view with that storage order: the
    expression itself when it is already contiguous and correctly ordered,
    else its evaluation into a fresh buffer. *)
Definition view_eval (l : layout_type) (e : xexpression) : xexpression :=
  if layout_eqb (layout e) l
     && list_eqb (strides e) (compute_strides xt l (shape e))
  then e
  else {| shape := shape e;
          strides := compute_strides xt l (shape e);
          layout := l;
          raw_data_offset := 0 |}.

(** Modelled from the spec: [get_leading_stride] of [xblas_utils.hpp].  The
    leading stride of a 2-D view is the distance between adjacent columns
    when it is column-major and between adjacent rows when it is row-major;
    a stride of 0 is replaced by 1. *)
Definition get_leading_stride (e : xexpression) : M machine Z :=
  s <- lift (match layout e with
             | column_major => back (strides e)
             | row_major => front (strides e)
             | dynamic => None
             end) ;;
  ret (if s =? 0 then 1 else to_blas_idx s).

(** Modelled from the spec: [get_blas_storage_order] of [xblas_utils.hpp],
    the storage-order tag of a view as the backend names it. *)
Definition get_blas_storage_order (e : xexpression) : M machine StorageOrder :=
  lift (match layout e with
        | row_major => Some RowMajor
        | column_major => Some ColMajor
        | dynamic => None
        end).

Definition gemm (A B result : xexpression) (transpose_A transpose_B : ascii)
    (alpha beta : T) : M machine unit :=
  (if layout_eqb (layout result) dynamic
   then throw (ill_formed "GEMM result layout cannot be dynamic.")
   else ret tt) ;;
  let dA := view_eval (layout result) A in
  let dB := view_eval (layout result) B in
  XTENSOR_ASSERT (layout_eqb (layout dA) (layout dB)) ;;
  XTENSOR_ASSERT (layout_eqb (layout result) (layout dA)) ;;
  XTENSOR_ASSERT (dimension dA =? 2) ;;
  XTENSOR_ASSERT (dimension dB =? 2) ;;
  order <- get_blas_storage_order result ;;
  m <- lift (if truthy transpose_A then at_ (shape dA) 1 else at_ (shape dA) 0) ;;
  n <- lift (if truthy transpose_B then at_ (shape dB) 0 else at_ (shape dB) 1) ;;
  k <- lift (if truthy transpose_B then at_ (shape dB) 1 else at_ (shape dB) 0) ;;
  ldA <- get_leading_stride dA ;;
  ldB <- get_leading_stride dB ;;
  ldC <- get_leading_stride result ;;
  invoke (cxx_gemm order
            (if truthy transpose_A then Trans else NoTrans)
            (if truthy transpose_B then Trans else NoTrans)
            (to_blas_idx m) (to_blas_idx n) (to_blas_idx k)
            alpha dA ldA dB ldB beta result ldC) ;;
  ret tt.

End Wrappers.

Arguments event : clear implicits.
Arguments machine : clear implicits.

(** *** Level-1 products with their values

    [dot] and [dotu] hand two strided vectors to a kernel and return what it
    computes, so their model keeps the elements.  The arithmetic of the
    components is a parameter: nothing below depends on its laws. *)

Record xcontainer (E : Type) := {
  descr : xexpression;
  raw_data : list E
}.
Arguments descr {E} _.
Arguments raw_data {E} _.

Section Level1.

Context {F : Type}.
Variable zero_F : F.
Variables add_F sub_F mul_F : F -> F -> F.
Variable opp_F : F -> F.
Variable cfg : config.

Definition czero : complex F := {| re := zero_F; im := zero_F |}.

Definition cadd (x y : complex F) : complex F :=
  {| re := add_F (re x) (re y); im := add_F (im x) (im y) |}.

Definition cmul (x y : complex F) : complex F :=
  {| re := sub_F (mul_F (re x) (re y)) (mul_F (im x) (im y));
     im := add_F (mul_F (re x) (im y)) (mul_F (im x) (re y)) |}.

Definition conj (x : complex F) : complex F :=
  {| re := re x; im := opp_F (im x) |}.

(** The element [i] places after a pointer into a buffer. *)
Definition read (buf : list (complex F)) (i : Z) : option (complex F) :=
  if i <? 0 then None else nth_error buf (Z.to_nat i).

Fixpoint strided_sum (prod : complex F -> complex F -> complex F) (k : nat)
    (x : list (complex F)) (ox incx : Z) (y : list (complex F)) (oy incy : Z)
  : option (complex F) :=
  match k with
  | O => Some czero
  | S k' =>
      match strided_sum prod k' x ox incx y oy incy,
            read x (ox + Z.of_nat k' * incx),
            read y (oy + Z.of_nat k' * incy) with
      | Some acc, Some xv, Some yv => Some (cadd acc (prod xv yv))
      | _, _, _ => None
      end
  end.

(** Modelled from the spec: [cxxblas::dot] of the bundled FLENS headers,
    which are not among the sources.  It is the inner product of two strided
    vectors of [n] elements; for complex element types, the first operand is
    conjugated. *)
Definition cxxblas_dot (n : Z) (x : list (complex F)) (ox incx : Z)
    (y : list (complex F)) (oy incy : Z) : option (complex F) :=
  strided_sum (fun xv yv => cmul (conj xv) yv) (Z.to_nat n) x ox incx y oy incy.

(** Modelled from the spec: [cxxblas::dotu] of the bundled FLENS headers,
    the inner product without conjugation. *)
Definition cxxblas_dotu (n : Z) (x : list (complex F)) (ox incx : Z)
    (y : list (complex F)) (oy incy : Z) : option (complex F) :=
  strided_sum cmul (Z.to_nat n) x ox incx y oy incy.

(** Modelled from the spec: [view_eval] of [xblas_utils.hpp] on an operand
    that is a container in its own storage order, which is returned by
    reference. *)
Definition view_eval_container {E} (a : xcontainer E) : xcontainer E := a.

(** [dot]; the value left in [result] is the value returned. *)
Definition dot (a b : xcontainer (complex F)) : outcome (complex F) :=
  let ad := view_eval_container a in
  let bd := view_eval_container b in
  if enable_assert cfg && negb (dimension (descr ad) =? 1)
  then Raised assertion_failure
  else
    match at_ (shape (descr ad)) 0,
          front (strides (descr ad)), front (strides (descr bd)) with
    | Some n, Some sa, Some sb =>
        match cxxblas_dot (to_blas_idx cfg n)
                (raw_data ad) (raw_data_offset (descr ad)) (to_blas_idx cfg sa)
                (raw_data bd) (raw_data_offset (descr bd)) (to_blas_idx cfg sb) with
        | Some result => Returned result
        | None => Raised undefined_behaviour
        end
    | _, _, _ => Raised undefined_behaviour
    end.

(** [dotu] *)
Definition dotu (a b : xcontainer (complex F)) : outcome (complex F) :=
  let ad := view_eval_container a in
  let bd := view_eval_container b in
  if enable_assert cfg && negb (dimension (descr ad) =? 1)
  then Raised assertion_failure
  else
    match at_ (shape (descr ad)) 0,
          front (strides (descr ad)), front (strides (descr bd)) with
    | Some n, Some sa, Some sb =>
        match cxxblas_dotu (to_blas_idx cfg n)
                (raw_data ad) (raw_data_offset (descr ad)) (to_blas_idx cfg sa)
                (raw_data bd) (raw_data_offset (descr bd)) (to_blas_idx cfg sb) with
        | Some result => Returned result
        | None => Raised undefined_behaviour
        end
    | _, _, _ => Raised undefined_behaviour
    end.

(** [conj(a)], element by element. *)
Definition conjugate (a : xcontainer (complex F)) : xcontainer (complex F) :=
  {| descr := descr a; raw_data := map conj (raw_data a) |}.

End Level1.

(** ** An instance of the parameters

    A configuration, the strides of the array library and scripted backends,
    to run the wrappers on examples. *)

Module Sample.

Definition lp64 (asserts : bool) : config :=
  {| int_bits := 32; blas_idx_bits := 32; size_bits := 64;
     enable_assert := asserts |}.

(** Strides as xtensor lays a container out: the running product of the
    dimensions, and 0 on a dimension of length 1. *)
Fixpoint strides_from (acc : Z) (sh : list Z) : list Z :=
  match sh with
  | [] => []
  | d :: sh' => (if d =? 1 then 0 else acc) :: strides_from (acc * d) sh'
  end.

Definition xtensor_strides (l : layout_type) (sh : list Z) : list Z :=
  match l with
  | row_major => rev (strides_from 1 (rev sh))
  | _ => strides_from 1 sh
  end.

Definition xtensor : array_library :=
  {| compute_strides := xtensor_strides;
     default_container := fun N l =>
       {| shape := repeat 0 N; strides := repeat 0 N; layout := l;
          raw_data_offset := 0 |} |}.

(** A container of the given shape. *)
Definition container (l : layout_type) (sh : list Z) : xexpression :=
  {| shape := sh; strides := xtensor_strides l sh; layout := l;
     raw_data_offset := 0 |}.

(** A backend that answers a size probe with one reply and any other call
    with another; its memory is the number of calls it has served. *)
Definition scripted {T} (probe exec : reply T) : call T -> nat -> reply T * nat :=
  fun c served => (if is_probe c then probe else exec, S served).

Definition answer {T} (status : Z) (w0 : T) : reply T :=
  {| info := status; work0 := w0; rwork0 := 1 # 1; iwork0 := 1 |}.

(** Complex numbers with integer components. *)
Definition Zi (x y : Z) : complex Z := {| re := x; im := y |}.

Definition vector (xs : list (complex Z)) : xcontainer (complex Z) :=
  {| descr := container column_major [Z.of_nat (List.length xs)];
     raw_data := xs |}.

End Sample.

(** ** What is said of a run

    A run is the outcome of a wrapper with the memory and the log it leaves. *)

Section Runs.

Context {T World : Type}.

Definition outcome_of {X} (res : outcome X * machine T World) : outcome X := fst res.

Definition log_of {X} (res : outcome X * machine T World) : list (event T) :=
  snd (snd res).

(** A wrapper that calls the backend once hands out the status of that call. *)
Definition returns_status_of_call (res : outcome Z * machine T World) : Prop :=
  (forall c r, In (c, r) (log_of res) ->
     log_of res = [(c, r)] /\ outcome_of res = Returned (info r)) /\
  (forall i, outcome_of res = Returned i ->
     exists c r, log_of res = [(c, r)] /\ i = info r).

(** A wrapper with a workspace query hands out the status of its second
    call, whatever that status is, and calls no third time. *)
Definition returns_status_of_execute {X} (status : X -> Z)
    (res : outcome X * machine T World) : Prop :=
  (forall e c r rest, log_of res = e :: (c, r) :: rest ->
     rest = [] /\ exists x, outcome_of res = Returned x /\ status x = info r) /\
  (forall x, outcome_of res = Returned x ->
     exists e c r, log_of res = [e; (c, r)] /\ status x = info r).

(** A failed size probe ends the wrapper with the given message. *)
Definition aborts_on_failed_probe {X} (what : string)
    (res : outcome X * machine T World) : Prop :=
  forall c1 r1 rest, log_of res = (c1, r1) :: rest -> info r1 <> 0 ->
    rest = [] /\ outcome_of res = Raised (runtime_error what).

(** The length read from the first scratch element after a probe: the
    element itself for a real kernel, its real part for a complex one. *)
Definition probed_size (cfg : config) (part : T -> Q) (r : reply T) : option Z :=
  float_to_size_t cfg (part (work0 r)).

(** A matrix argument that a wrapper can read: it has two dimensions and
    strides; and one that passes the assertion on its storage order. *)
Definition matrix_with_strides (A : xexpression) : Prop :=
  (exists m n, shape A = [m; n]) /\ strides A <> [].

Definition passes_assertions (cfg : config) (A : xexpression) : Prop :=
  enable_assert cfg = true -> layout A = column_major.

(** The workspace query of a wrapper, from the probe to the execute call.
    - The scratch vector of the second call has the length read from the
      first slot after the probe, never less, and so has the scratch-size
      argument.
    - A probe that reported success is the only call just when a size it
      left does not convert.
    - With arguments that are [ready], the probe is made.
    - After a probe that reported success with sizes that convert, the
      execute call is made, once, with the scratch of the probed length, and
      its status is what the wrapper returns. *)
Definition scratch_as_probed {X} (cfg : config) (probed : reply T -> option Z)
    (auxiliary : reply T -> Prop) (status : X -> Z) (ready : Prop)
    (res : outcome X * machine T World) : Prop :=
  (forall c1 r1 c r rest, log_of res = (c1, r1) :: (c, r) :: rest ->
     exists lw work,
       probed r1 = Some lw /\ work_of c = Some work /\
       usize work = lw /\ ~ usize work < lw /\
       lwork_of c = Some (to_index cfg (usize work))) /\
  (forall c1 r1, log_of res = [(c1, r1)] -> info r1 = 0 ->
     outcome_of res = Raised undefined_behaviour /\
     (probed r1 = None \/ ~ auxiliary r1)) /\
  (ready -> log_of res <> []) /\
  (forall c1 r1 rest lw,
     log_of res = (c1, r1) :: rest -> info r1 = 0 ->
     probed r1 = Some lw -> auxiliary r1 ->
     exists c2 r2 x,
       rest = [(c2, r2)] /\
       work_of c2 = Some {| usize := lw |} /\
       lwork_of c2 = Some (to_index cfg lw) /\
       outcome_of res = Returned x /\ status x = info r2).

(** The outputs of a [gesdd] call: [u] with its leading dimension, [vt] with
    its leading dimension; and its vector of singular values. *)
Definition svd_outputs (c : call T) : option (xexpression * Z * xexpression * Z) :=
  match c with
  | cxx_gesdd _ _ _ _ _ _ u ldU vt ldVT _ _ _ _ => Some (u, ldU, vt, ldVT)
  | _ => None
  end.

Definition svd_values (c : call T) : option xexpression :=
  match c with
  | cxx_gesdd _ _ _ _ _ s _ _ _ _ _ _ _ _ => Some s
  | _ => None
  end.



Definition singular_values_of_length (k : Z)
    (res : outcome (Z * xexpression * xexpression * xexpression) * machine T World)
  : Prop :=
  (forall i u s vt, outcome_of res = Returned (i, u, s, vt) ->
     shape s = [k] /\ size s = k) /\
  (forall c r, In (c, r) (log_of res) ->
     exists s, svd_values c = Some s /\ shape s = [k]).

(** A call refused before the backend is reached. *)
Definition rejected_before_kernel {X} (res : outcome X * machine T World) : Prop :=
  log_of res = [] /\ exists f, outcome_of res = Raised f.

(** The number of right-hand sides and the leading dimension of [b] in a
    call of [gesv] or [gelsd]. *)
Definition rhs_arguments (c : call T) : option (Z * Z) :=
  match c with
  | cxx_gesv _ nrhs _ _ _ _ ldB => Some (nrhs, ldB)
  | cxx_gelsd _ _ nrhs _ _ _ ldB _ _ _ _ _ _ => Some (nrhs, ldB)
  | _ => None
  end.

(** The dimensions [m], [n] and [k] of a [gemm] call. *)
Definition product_dimensions (c : call T) : option (Z * Z * Z) :=
  match c with
  | cxx_gemm _ _ _ m n k _ _ _ _ _ _ _ _ => Some (m, n, k)
  | _ => None
  end.

(** The leading dimension of [A] in a call. *)
Definition lda_of (c : call T) : option Z :=
  match c with
  | cxx_gemm _ _ _ _ _ _ _ _ ld _ _ _ _ _ | cxx_gesv _ _ _ ld _ _ _
  | cxx_getrf _ _ _ ld _ | cxx_orgqr _ _ _ _ ld _ _ _
  | cxx_ungqr _ _ _ _ ld _ _ _ | cxx_geqrf _ _ _ ld _ _ _
  | cxx_gesdd _ _ _ _ ld _ _ _ _ _ _ _ _ _ | cxx_potrf _ _ _ ld
  | cxx_getri _ _ ld _ _ _ | cxx_geev _ _ _ _ ld _ _ _ _ _ _ _ _ _
  | cxx_syevd _ _ _ _ ld _ _ _ _ _ | cxx_heevd _ _ _ _ ld _ _ _ _ _ _ _
  | cxx_gelsd _ _ _ _ ld _ _ _ _ _ _ _ _ => Some ld
  end.

End Runs.

(** The rule for the right-hand side as the specification words it: a
    one-dimensional [b] is one right-hand side led by its length, a
    two-dimensional [b] has its last shape entry as the number of right-hand
    sides and its last stride as the leading dimension. *)
Definition rhs_rule_as_specified (b : xexpression) (nrhs ldb : Z) : Prop :=
  (dimension b = 1 -> nrhs = 1 /\ front (shape b) = Some ldb) /\
  (dimension b = 2 -> back (shape b) = Some nrhs /\ back (strides b) = Some ldb).

(** The rule as the code has it: a two-dimensional [b] with a single column
    is led by its first shape entry. *)
Definition rhs_rule (b : xexpression) (nrhs ldb : Z) : Prop :=
  (dimension b = 1 -> nrhs = 1 /\ front (shape b) = Some ldb) /\
  (dimension b = 2 ->
     back (shape b) = Some nrhs /\
     (nrhs <> 1 -> back (strides b) = Some ldb) /\
     (nrhs = 1 -> front (shape b) = Some ldb)).

(** The contraction dimensions of a product: the columns of [op(A)] and the
    rows of [op(B)]. *)
Definition contraction_of_A (transpose_A : ascii) (A : xexpression) : option Z :=
  if truthy transpose_A then at_ (shape A) 0 else at_ (shape A) 1.

Definition contraction_of_B (transpose_B : ascii) (B : xexpression) : option Z :=
  if truthy transpose_B then at_ (shape B) 1 else at_ (shape B) 0.

(** ** Scratch and guards *)

Section Scratch.

Context {T World : Type}.

Definition blank : uvector := {| usize := 0 |}.

(** A call with its scratch vectors and scratch sizes blanked, where the
    wrapper sizes them between probe and execute: what is left is the
    problem the call states. *)
Definition problem_of (c : call T) : call T :=
  match c with
  | cxx_orgqr m n k A ld tau _ _ => cxx_orgqr m n k A ld tau blank 0
  | cxx_ungqr m n k A ld tau _ _ => cxx_ungqr m n k A ld tau blank 0
  | cxx_geqrf m n A ld tau _ _ => cxx_geqrf m n A ld tau blank 0
  | cxx_getri n A ld piv _ _ => cxx_getri n A ld piv blank 0
  | cxx_gesdd jobz m n A ld s u ldu vt ldvt _ _ rwork iwork =>
      cxx_gesdd jobz m n A ld s u ldu vt ldvt blank 0 rwork iwork
  | cxx_geev jobvl jobvr n A ld w wi VL ldvl VR ldvr _ _ rwork =>
      cxx_geev jobvl jobvr n A ld w wi VL ldvl VR ldvr blank 0 rwork
  | cxx_syevd jobz uplo n A ld w _ _ _ _ =>
      cxx_syevd jobz uplo n A ld w blank 0 blank 0
  | cxx_heevd jobz uplo n A ld w _ _ _ _ _ _ =>
      cxx_heevd jobz uplo n A ld w blank 0 blank 0 blank 0
  | cxx_gelsd m n nrhs A ld B ldb s rcond _ _ rwork _ =>
      cxx_gelsd m n nrhs A ld B ldb s rcond blank 0
        (option_map (fun _ => blank) rwork) blank
  | cxx_gemm _ _ _ _ _ _ _ _ _ _ _ _ _ _ | cxx_gesv _ _ _ _ _ _ _
  | cxx_getrf _ _ _ _ _ | cxx_potrf _ _ _ _ => c
  end.

(** The integer scratch of a call, with its size argument where the routine
    takes one; likewise the real scratch. *)
Definition iwork_of (c : call T) : option (uvector * option Z) :=
  match c with
  | cxx_gesdd _ _ _ _ _ _ _ _ _ _ _ _ _ iwork => Some (iwork, None)
  | cxx_syevd _ _ _ _ _ _ _ _ iwork liwork => Some (iwork, Some liwork)
  | cxx_heevd _ _ _ _ _ _ _ _ _ _ iwork liwork => Some (iwork, Some liwork)
  | cxx_gelsd _ _ _ _ _ _ _ _ _ _ _ _ iwork => Some (iwork, None)
  | _ => None
  end.

Definition rwork_of (c : call T) : option (uvector * option Z) :=
  match c with
  | cxx_gesdd _ _ _ _ _ _ _ _ _ _ _ _ (Some rwork) _ => Some (rwork, None)
  | cxx_geev _ _ _ _ _ _ _ _ _ _ _ _ _ (Some rwork) => Some (rwork, None)
  | cxx_heevd _ _ _ _ _ _ _ _ rwork lrwork _ _ => Some (rwork, Some lrwork)
  | cxx_gelsd _ _ _ _ _ _ _ _ _ _ _ (Some rwork) _ => Some (rwork, None)
  | _ => None
  end.

(** The transposition flags of a [gemm] call. *)
Definition product_flags (c : call T) : option (Transpose * Transpose) :=
  match c with
  | cxx_gemm _ ta tb _ _ _ _ _ _ _ _ _ _ _ => Some (ta, tb)
  | _ => None
  end.

(** A run that a failed assertion ended before any kernel call. *)
Definition refused_by_assertion {X} (res : outcome X * machine T World) : Prop :=
  outcome_of res = Raised assertion_failure /\ log_of res = [].

(** Probe and execute state the same problem. *)
Definition probe_and_execute_agree {X} (res : outcome X * machine T World) : Prop :=
  forall c1 r1 c2 r2 rest,
    log_of res = (c1, r1) :: (c2, r2) :: rest -> problem_of c1 = problem_of c2.

(** The first call asks for sizes with a scratch of one element. *)
Definition opens_with_probe {X} (res : outcome X * machine T World) : Prop :=
  forall c1 r1 rest,
    log_of res = (c1, r1) :: rest ->
    work_of c1 = Some {| usize := 1 |} /\ is_probe c1 = true.

(** The integer scratch of the execute call has the length the probe left
    in [iwork[0]], and its size argument, where the routine takes one, is
    that length. *)
Definition integer_scratch_as_probed {X} (cfg : config) (sized : bool)
    (res : outcome X * machine T World) : Prop :=
  forall c1 r1 c2 r2 rest,
    log_of res = (c1, r1) :: (c2, r2) :: rest ->
    let iwork := {| usize := to_size_t cfg (iwork0 r1) |} in
    iwork_of c2
    = Some (iwork, if sized then Some (to_index cfg (usize iwork)) else None).

(** The real scratch of the execute call has the length the probe left in
    [rwork[0]]. *)
Definition real_scratch_as_probed {X} (cfg : config) (sized : bool)
    (res : outcome X * machine T World) : Prop :=
  forall c1 r1 c2 r2 rest,
    log_of res = (c1, r1) :: (c2, r2) :: rest ->
    exists lrw,
      float_to_size_t cfg (rwork0 r1) = Some lrw /\
      rwork_of c2
      = Some ({| usize := lrw |},
              if sized then Some (to_index cfg lrw) else None).

End Scratch.

(** The configuration with assertions switched on or off. *)
Definition set_assert (on : bool) (cfg : config) : config :=
  {| int_bits := int_bits cfg; blas_idx_bits := blas_idx_bits cfg;
     size_bits := size_bits cfg; enable_assert := on |}.

(** A container seen with another shape. *)
Definition with_shape {E} (sh : list Z) (a : xcontainer E) : xcontainer E :=
  {| descr := {| shape := sh; strides := strides (descr a);
                 layout := layout (descr a);
                 raw_data_offset := raw_data_offset (descr a) |};
     raw_data := raw_data a |}.

(** ** The remaining wrappers of xblas.hpp

    [asum], [nrm2], [gemv] and [ger] return nothing: what the kernel computes
    stays in the memory behind [result]. *)

Section Level2Calls.

Context {T : Type}.

Inductive blas_call :=
| cxx_asum (n : Z) (x : xexpression) (incX : Z)
| cxx_nrm2 (n : Z) (x : xexpression) (incX : Z)
| cxx_gemv (order : StorageOrder) (trans : Transpose) (m n : Z) (alpha : T)
    (A : xexpression) (ldA : Z) (x : xexpression) (incX : Z) (beta : T)
    (y : xexpression) (incY : Z)
| cxx_ger (order : StorageOrder) (m n : Z) (alpha : T)
    (x : xexpression) (incX : Z) (y : xexpression) (incY : Z)
    (A : xexpression) (ldA : Z).

(** The transposition and the two dimensions of a [gemv] call. *)
Definition gemv_dimensions (c : blas_call) : option (Transpose * Z * Z) :=
  match c with
  | cxx_gemv _ trans m n _ _ _ _ _ _ _ _ => Some (trans, m, n)
  | _ => None
  end.

End Level2Calls.

Arguments blas_call : clear implicits.

Section Level2.

Context {T World : Type}.
Variable cfg : config.
Variable xt : array_library.

(** The storage order that [view_eval] takes when none is named, set in
    [xblas_utils.hpp], which is not among the sources. *)
Variable default_layout : layout_type.

Variable blas_kernel : blas_call T -> World -> World.

Definition blas_machine : Type := World * list (blas_call T).

Definition blas_invoke (c : blas_call T) : M blas_machine unit :=
  fun '(w, log) => (Returned tt, (blas_kernel c w, log ++ [c])).

Definition xtensor_assert (b : bool) : M blas_machine unit :=
  if enable_assert cfg && negb b then throw assertion_failure else ret tt.

(** [get_leading_stride] and [get_blas_storage_order] as partial functions. *)
Definition leading_stride (e : xexpression) : option Z :=
  match match layout e with
        | column_major => back (strides e)
        | row_major => front (strides e)
        | dynamic => None
        end with
  | Some s => Some (if s =? 0 then 1 else to_blas_idx cfg s)
  | None => None
  end.

Definition storage_order (e : xexpression) : option StorageOrder :=
  match layout e with
  | row_major => Some RowMajor
  | column_major => Some ColMajor
  | dynamic => None
  end.

Definition asum (a : xexpression) : M blas_machine unit :=
  let ad := view_eval xt (layout a) a in
  xtensor_assert (dimension ad =? 1) ;;
  n <- lift (at_ (shape ad) 0) ;;
  inc <- lift (front (strides ad)) ;;
  blas_invoke (cxx_asum (to_blas_idx cfg n) ad (to_blas_idx cfg inc)).

Definition nrm2 (a : xexpression) : M blas_machine unit :=
  let ad := view_eval xt (layout a) a in
  xtensor_assert (dimension ad =? 1) ;;
  n <- lift (at_ (shape ad) 0) ;;
  inc <- lift (front (strides ad)) ;;
  blas_invoke (cxx_nrm2 (to_blas_idx cfg n) ad (to_blas_idx cfg inc)).

Definition gemv (A x result : xexpression) (transpose_A : bool)
    (alpha beta : T) : M blas_machine unit :=
  let dA := view_eval xt (layout A) A in
  let dx := view_eval xt (layout x) x in
  order <- lift (storage_order result) ;;
  m <- lift (at_ (shape dA) 0) ;;
  n <- lift (at_ (shape dA) 1) ;;
  ldA <- lift (leading_stride dA) ;;
  incx <- lift (leading_stride dx) ;;
  incy <- lift (leading_stride result) ;;
  blas_invoke (cxx_gemv order (if transpose_A then Trans else NoTrans)
                 (to_blas_idx cfg m) (to_blas_idx cfg n)
                 alpha dA ldA dx incx beta result incy).

Definition ger (x y result : xexpression) (alpha : T) : M blas_machine unit :=
  let dx := view_eval xt default_layout x in
  let dy := view_eval xt default_layout y in
  xtensor_assert (dimension dx =? 1) ;;
  xtensor_assert (dimension dy =? 1) ;;
  order <- lift (storage_order result) ;;
  m <- lift (at_ (shape dx) 0) ;;
  n <- lift (at_ (shape dy) 0) ;;
  incx <- lift (front (strides dx)) ;;
  incy <- lift (front (strides dy)) ;;
  ld <- lift (front (strides result)) ;;
  blas_invoke (cxx_ger order (to_blas_idx cfg m) (to_blas_idx cfg n) alpha
                 dx (to_blas_idx cfg incx) dy (to_blas_idx cfg incy)
                 result (to_blas_idx cfg ld)).

End Level2.

Arguments blas_machine : clear implicits.

(** A backend for the sample runs of these wrappers: its memory counts the
    calls. *)
Definition counting_kernel {T} : blas_call T -> nat -> nat := fun _ served => S served.

(** * Properties *)

(** ** Machine integers *)

Lemma wrap_signed_fits (w z : Z) :
  Ints.fits_signed w z -> Ints.wrap_signed w z = z.
Proof.
  unfold Ints.fits_signed, Ints.wrap_signed. intros Hz.
  assert (Hw : 0 <= w - 1).
  { destruct (Z.lt_ge_cases (w - 1) 0) as [Hneg | Hpos]; [| exact Hpos].
    rewrite (Z.pow_neg_r 2 (w - 1) Hneg) in Hz. lia. }
  replace (2 ^ w) with (2 * 2 ^ (w - 1)).
  - rewrite Z.mod_small; lia.
  - rewrite <- Z.pow_succ_r by exact Hw. f_equal. lia.
Qed.

Lemma select_stride_zero (cfg : config) : select_stride cfg 0 = 1.
Proof. reflexivity. Qed.

Lemma select_stride_fits (cfg : config) (s : Z) :
  Ints.fits_signed (int_bits cfg) s -> select_stride cfg s <> 0.
Proof.
  intros Hs. unfold select_stride.
  destruct (Z.eqb_spec s 0) as [-> | Hnz]; [discriminate |].
  unfold to_index. rewrite wrap_signed_fits by exact Hs. exact Hnz.
Qed.

(** ** Running a wrapper symbolically *)

(** The term whose value decides the next step of a run. *)
Ltac head_of t :=
  lazymatch t with
  | match ?x with _ => _ end => head_of x
  | ?f _ =>
      lazymatch f with
      | match _ with _ => _ end => head_of f
      | _ => t
      end
  | _ => t
  end.

Ltac unfold_wrappers H :=
  unfold gesv, getrf, orgqr, ungqr, geqrf, gesdd, gesdd_complex, potr, getri,
    geev, geev_complex, syevd, heevd, gelsd, gelsd_complex, gemm,
    get_leading_stride, get_blas_storage_order in H;
  unfold XTENSOR_ASSERT, lift, invoke in H;
  unfold bind, ret, throw in H.

(** Follow the run in [H : wrapper ... = res] to each of its ends. *)
Ltac run_in H :=
  unfold_wrappers H; cbn beta iota zeta in H;
  repeat (lazymatch type of H with
          | ?lhs = _ =>
              let h := head_of lhs in
              tryif constr_eq h lhs then fail
              else (destruct h eqn:?; cbn beta iota zeta in H)
          end).

Ltac runs :=
  let res := fresh "res" in
  let Hres := fresh "Hres" in
  match goal with
  | |- context [?f (?w, @nil ?E)] =>
      remember (f (w, @nil E)) as res eqn:Hres; symmetry in Hres;
      run_in Hres; subst res
  end.

(** ** Runs on the sample backend *)

Example orgqr_run :
  let A := Sample.container column_major [4; 3] in
  let tau := Sample.container column_major [3] in
  orgqr (Sample.lp64 true)
    (Sample.scripted (Sample.answer 0 (96 # 1)%Q) (Sample.answer 2 (0 # 1)%Q))
    A tau (-1) (0%nat, [])
  = (Returned 2,
     (2%nat,
      [(cxx_orgqr 4 3 3 A 4 tau {| usize := 1 |} (-1), Sample.answer 0 (96 # 1)%Q);
       (cxx_orgqr 4 3 3 A 4 tau {| usize := 96 |} 96, Sample.answer 2 (0 # 1)%Q)])).
Proof. vm_compute. reflexivity. Qed.

Example orgqr_failed_probe :
  let A := Sample.container column_major [4; 3] in
  let tau := Sample.container column_major [3] in
  orgqr (Sample.lp64 true)
    (Sample.scripted (Sample.answer (-5) (0 # 1)%Q) (Sample.answer 0 (0 # 1)%Q))
    A tau (-1) (0%nat, [])
  = (Raised (runtime_error "Could not find workspace size for orgqr."),
     (1%nat,
      [(cxx_orgqr 4 3 3 A 4 tau {| usize := 1 |} (-1),
        Sample.answer (-5) (0 # 1)%Q)])).
Proof. vm_compute. reflexivity. Qed.

Example ungqr_truncates_real_part :
  let A := Sample.container column_major [2; 2] in
  let tau := Sample.container column_major [2] in
  let probe := Sample.answer 0 {| re := (13 # 2)%Q; im := (7 # 1)%Q |} in
  let exec := Sample.answer 0 {| re := (0 # 1)%Q; im := (0 # 1)%Q |} in
  log_of (ungqr (Sample.lp64 false) (Sample.scripted probe exec) A tau (-1)
            (0%nat, []))
  = [(cxx_ungqr 2 2 2 A 2 tau {| usize := 1 |} (-1), probe);
     (cxx_ungqr 2 2 2 A 2 tau {| usize := 6 |} 6, exec)].
Proof. vm_compute. reflexivity. Qed.

Example init_u_vt_modes :
  let unsized := default_container Sample.xtensor 2 column_major in
  let sized := Sample.container column_major in
  init_u_vt (Sample.lp64 true) Sample.xtensor unsized unsized "A" 3 2
  = Some (sized [3; 3], sized [2; 2], (3, 2)) /\
  init_u_vt (Sample.lp64 true) Sample.xtensor unsized unsized "N" 3 2
  = Some (unsized, unsized, (1, 1)) /\
  init_u_vt (Sample.lp64 true) Sample.xtensor unsized unsized "O" 3 2
  = Some (unsized, sized [2; 2], (1, 2)) /\
  init_u_vt (Sample.lp64 true) Sample.xtensor unsized unsized "O" 2 3
  = Some (sized [2; 2], unsized, (2, 1)) /\
  init_u_vt (Sample.lp64 true) Sample.xtensor unsized unsized "S" 3 2
  = Some (sized [3; 2], sized [2; 2], (3, 2)) /\
  init_u_vt (Sample.lp64 true) Sample.xtensor unsized unsized "S" 3 1
  = Some (sized [3; 1], sized [1; 1], (1, 1)).
Proof. cbv zeta. repeat split; vm_compute; reflexivity. Qed.

(** Read off a property of a run that has been followed to its end. *)
Ltac read_off :=
  unfold log_of, outcome_of in *; cbn [fst snd app In] in *;
  repeat match goal with
         | |- _ /\ _ => split
         | |- forall _, _ => intro
         | H : _ \/ _ |- _ => destruct H
         | H : False |- _ => destruct H
         | H : (_, _) = (_, _) |- _ => inversion H; clear H; subst
         | H : _ :: _ = _ :: _ |- _ => inversion H; clear H; subst
         | H : Returned _ = Returned _ |- _ => inversion H; clear H; subst
         | H : Some _ = Some _ |- _ => inversion H; clear H; subst
         | H : Raised _ = Returned _ |- _ => discriminate H
         | H : Returned _ = Raised _ |- _ => discriminate H
         | H : [] = _ :: _ |- _ => discriminate H
         | H : _ :: _ = [] |- _ => discriminate H
         | H : None = Some _ |- _ => discriminate H
         end.

(** ** The status of the execute phase *)

(** C3. Every factorization wrapper hands the status of its execute-phase
    call back as it is: once that call is made the wrapper returns its
    status, whatever the value, and makes no further call; and every value a
    wrapper returns is the status of that call. *)
Theorem execute_status_is_returned :
  forall (T World : Type) (cfg : config) (xt : array_library)
         (kernel : call T -> World -> reply T * World) (w : World),
    (forall A b, returns_status_of_call (gesv cfg kernel A b (w, []))) /\
    (forall A piv, returns_status_of_call (getrf cfg kernel A piv (w, []))) /\
    (forall A uplo, returns_status_of_call (potr cfg kernel A uplo (w, []))) /\
    (forall (TS : Scalar T) A tau,
        returns_status_of_execute (fun i => i) (geqrf cfg kernel A tau (w, []))) /\
    (forall (TA : Arithmetic T) A tau n,
        returns_status_of_execute (fun i => i) (orgqr cfg kernel A tau n (w, []))) /\
    (forall (TS : Scalar T) A tau n,
        returns_status_of_execute (fun i => i) (ungqr cfg kernel A tau n (w, []))) /\
    (forall (TA : Arithmetic T) A piv,
        returns_status_of_execute (fun i => i) (getri cfg kernel A piv (w, []))) /\
    (forall (TA : Arithmetic T) A jobz,
        returns_status_of_execute (fun x => fst (fst (fst x)))
          (gesdd cfg xt kernel A jobz (w, []))) /\
    (forall (TS : Scalar T) A jobz,
        returns_status_of_execute (fun x => fst (fst (fst x)))
          (gesdd_complex cfg xt kernel A jobz (w, []))) /\
    (forall (TA : Arithmetic T) A jobvl jobvr wr wi VL VR,
        returns_status_of_execute (fun i => i)
          (geev cfg kernel A jobvl jobvr wr wi VL VR (w, []))) /\
    (forall (TS : Scalar T) A jobvl jobvr ev VL VR,
        returns_status_of_execute (fun i => i)
          (geev_complex cfg kernel A jobvl jobvr ev VL VR (w, []))) /\
    (forall (TA : Arithmetic T) A jobz uplo ev,
        returns_status_of_execute (fun i => i)
          (syevd cfg kernel A jobz uplo ev (w, []))) /\
    (forall (TS : Scalar T) A jobz uplo ev,
        returns_status_of_execute (fun i => i)
          (heevd cfg kernel A jobz uplo ev (w, []))) /\
    (forall (TA : Arithmetic T) A b s rcond,
        returns_status_of_execute (fun i => i)
          (gelsd cfg kernel A b s rcond (w, []))) /\
    (forall (TS : Scalar T) A b s rcond,
        returns_status_of_execute (fun i => i)
          (gelsd_complex cfg kernel A b s rcond (w, []))).
Proof.
  intros T World cfg xt kernel w.
  repeat match goal with |- _ /\ _ => split end; intros;
    unfold returns_status_of_call, returns_status_of_execute;
    runs; read_off; eauto 8.
Qed.

(** ** The size probe *)

(** Wherever the probe is tested with [info != 0], a status other than 0
    ends the wrapper after the probe with the error that names it. *)
Lemma failed_probe_aborts :
  forall (T World : Type) (cfg : config) (xt : array_library)
         (kernel : call T -> World -> reply T * World) (w : World),
    (forall (TS : Scalar T) A tau,
        aborts_on_failed_probe "Could not find workspace size for geqrf."
          (geqrf cfg kernel A tau (w, []))) /\
    (forall (TA : Arithmetic T) A tau n,
        aborts_on_failed_probe "Could not find workspace size for orgqr."
          (orgqr cfg kernel A tau n (w, []))) /\
    (forall (TS : Scalar T) A tau n,
        aborts_on_failed_probe "Could not find workspace size for ungqr."
          (ungqr cfg kernel A tau n (w, []))) /\
    (forall (TA : Arithmetic T) A jobz,
        aborts_on_failed_probe "Could not find workspace size for real gesdd."
          (gesdd cfg xt kernel A jobz (w, []))) /\
    (forall (TS : Scalar T) A jobz,
        aborts_on_failed_probe "Could not find workspace size for complex gesdd."
          (gesdd_complex cfg xt kernel A jobz (w, []))) /\
    (forall (TA : Arithmetic T) A jobvl jobvr wr wi VL VR,
        aborts_on_failed_probe "Could not find workspace size for geev."
          (geev cfg kernel A jobvl jobvr wr wi VL VR (w, []))) /\
    (forall (TS : Scalar T) A jobvl jobvr ev VL VR,
        aborts_on_failed_probe "Could not find workspace size for geev."
          (geev_complex cfg kernel A jobvl jobvr ev VL VR (w, []))) /\
    (forall (TA : Arithmetic T) A jobz uplo ev,
        aborts_on_failed_probe "Could not find workspace size for syevd."
          (syevd cfg kernel A jobz uplo ev (w, []))) /\
    (forall (TS : Scalar T) A jobz uplo ev,
        aborts_on_failed_probe "Could not find workspace size for heevd."
          (heevd cfg kernel A jobz uplo ev (w, []))) /\
    (forall (TA : Arithmetic T) A b s rcond,
        aborts_on_failed_probe "Could not find workspace size for gelsd."
          (gelsd cfg kernel A b s rcond (w, []))) /\
    (forall (TS : Scalar T) A b s rcond,
        aborts_on_failed_probe "Could not find workspace size for gelsd."
          (gelsd_complex cfg kernel A b s rcond (w, []))).
Proof.
  intros T World cfg xt kernel w.
  repeat match goal with |- _ /\ _ => split end; intros;
    unfold aborts_on_failed_probe;
    runs; read_off; try reflexivity;
    match goal with
    | Hnz : info ?r <> 0, Hb : negb (info ?r =? 0) = false |- _ =>
        apply negb_false_iff, Z.eqb_eq in Hb; contradiction
    end.
Qed.

(** [getri] tests its probe with [info > 0]: a positive status ends it with
    the error, a negative one does not. *)
Lemma getri_positive_probe_aborts :
  forall (T World : Type) (TA : Arithmetic T) (cfg : config)
         (kernel : call T -> World -> reply T * World) (w : World) A piv,
  forall c1 r1 rest,
    log_of (getri cfg kernel A piv (w, [])) = (c1, r1) :: rest ->
    0 < info r1 ->
    rest = [] /\
    outcome_of (getri cfg kernel A piv (w, []))
    = Raised (runtime_error "Could not find workspace size for getri.").
Proof.
  intros T World TA cfg kernel w A piv.
  runs; read_off; try reflexivity;
    match goal with
    | Hpos : 0 < info ?r, Hb : (0 <? info ?r) = false |- _ =>
        apply Z.ltb_ge in Hb; lia
    end.
Qed.

(** C2. At a 1-by-1 matrix, whose strides are 0, the probe of [getri] is
    answered with the status -3 of an illegal leading dimension; [getri]
    throws nothing, reads a scratch size and calls the kernel a second time. *)
Theorem getri_negative_probe_reaches_execute :
  let A := Sample.container column_major [1; 1] in
  let piv := {| usize := 1 |} in
  let failed := Sample.answer (-3) (1 # 1)%Q in
  let done := Sample.answer 0 (0 # 1)%Q in
  strides A = [0; 0] /\ info failed <> 0 /\
  getri (Sample.lp64 true) (Sample.scripted failed done) A piv (0%nat, [])
  = (Returned 0,
     (2%nat,
      [(cxx_getri 1 A 0 piv {| usize := 1 |} (-1), failed);
       (cxx_getri 1 A 0 piv {| usize := 1 |} 1, done)])).
Proof.
  cbv zeta. split; [reflexivity |]. split; [discriminate |].
  vm_compute. reflexivity.
Qed.

(** ** Leading dimensions *)

(** [gesdd] passes the last stride of [A] through [select_stride]. *)
Lemma gesdd_selects_stride_of_A :
  forall (T World : Type) (cfg : config) (xt : array_library)
         (kernel : call T -> World -> reply T * World) (w : World) A jobz,
    (forall (TA : Arithmetic T) c r,
        In (c, r) (log_of (gesdd cfg xt kernel A jobz (w, []))) ->
        exists sb, back (strides A) = Some sb /\ lda_of c = Some (select_stride cfg sb)) /\
    (forall (TS : Scalar T) c r,
        In (c, r) (log_of (gesdd_complex cfg xt kernel A jobz (w, []))) ->
        exists sb, back (strides A) = Some sb /\ lda_of c = Some (select_stride cfg sb)).
Proof.
  intros T World cfg xt kernel w A jobz.
  split; intros; revert H; runs; read_off; eauto.
Qed.

(** C4. [gesv] on a 1-by-1 system: the stride that serves as leading
    dimension of [A] is 0, and 0 is what the kernel receives; no 1 is put in
    its place. *)
Theorem gesv_passes_zero_leading_dimension :
  let A := Sample.container column_major [1; 1] in
  let b := Sample.container column_major [1] in
  let refused := Sample.answer (-4) (0 # 1)%Q in
  at_ (strides A) 1 = Some 0 /\
  gesv (Sample.lp64 true) (Sample.scripted refused refused) A b (0%nat, [])
  = (Returned (-4),
     (1%nat, [(cxx_gesv 1 1 A 0 {| usize := 1 |} b 1, refused)])).
Proof.
  cbv zeta. split; [reflexivity |]. vm_compute. reflexivity.
Qed.

(** ** Singular value decomposition *)


Lemma back_None {A : Type} (l : list A) : back l = None -> l = [].
Proof.
  induction l as [| x l IH]; [reflexivity |].
  destruct l as [| y l]; [discriminate |].
  intros H. specialize (IH H). discriminate IH.
Qed.

(** Hypotheses on a matrix argument that a run has contradicted. *)
Ltac absurd_matrix :=
  match goal with
  | Hs : shape ?A = [_; _], H : at_ (shape ?A) _ = None |- _ =>
      rewrite Hs in H; discriminate H
  | Hs : shape ?A = [_; _],
    H : _ && negb (dimension ?A =? 2) = true |- _ =>
      unfold dimension in H; rewrite Hs in H; cbn in H;
      rewrite andb_false_r in H; discriminate H
  | Hl : enable_assert ?cfg = true -> layout ?A = column_major,
    H : enable_assert ?cfg && negb (layout_eqb (layout ?A) column_major) = true |- _ =>
      apply andb_true_iff in H; destruct H as [Hon H];
      rewrite (Hl Hon) in H; discriminate H
  | Hn : strides ?A <> [], H : back (strides ?A) = None |- _ =>
      apply back_None in H; contradiction
  end.

(** A well-formed matrix reaches the kernel. *)
Lemma gesdd_reaches_kernel :
  forall (T World : Type) (cfg : config) (xt : array_library)
         (kernel : call T -> World -> reply T * World) (w : World)
         (A : xexpression) (jobz : ascii) (m n : Z),
    shape A = [m; n] ->
    strides A <> [] ->
    (enable_assert cfg = true -> layout A = column_major) ->
    init_u_vt cfg xt (default_container xt 2 column_major)
      (default_container xt 2 column_major) jobz m n <> None ->
    (forall TA : Arithmetic T, log_of (gesdd cfg xt kernel A jobz (w, [])) <> []) /\
    (forall TS : Scalar T, log_of (gesdd_complex cfg xt kernel A jobz (w, [])) <> []).
Proof.
  intros T World cfg xt kernel w A jobz m n Hshape Hstrides Hlayout Hinit.
  split; intros; runs; read_off; try discriminate; try absurd_matrix.
  all: rewrite Hshape in *; cbn [at_ nth_error] in *; read_off; contradiction.
Qed.



(** C10. In both the real and the complex [gesdd] on an m-by-n matrix, the
    vector [s] of singular values, as passed to the kernel and as returned,
    has the length max(1, min(m, n)) in every job mode; it has at least one
    element, also when m or n is 0. *)
Theorem gesdd_singular_values_length :
  forall (T World : Type) (cfg : config) (xt : array_library)
         (kernel : call T -> World -> reply T * World) (w : World)
         (A : xexpression) (jobz : ascii) (m n : Z),
    shape A = [m; n] ->
    let k := Z.max 1 (Z.min m n) in
    1 <= k /\
    (forall TA : Arithmetic T,
        singular_values_of_length k (gesdd cfg xt kernel A jobz (w, []))) /\
    (forall TS : Scalar T,
        singular_values_of_length k (gesdd_complex cfg xt kernel A jobz (w, []))) /\
    (strides A <> [] ->
     (enable_assert cfg = true -> layout A = column_major) ->
     init_u_vt cfg xt (default_container xt 2 column_major)
       (default_container xt 2 column_major) jobz m n <> None ->
     (forall TA : Arithmetic T,
         log_of (gesdd cfg xt kernel A jobz (w, [])) <> []) /\
     (forall TS : Scalar T,
         log_of (gesdd_complex cfg xt kernel A jobz (w, [])) <> [])).
Proof.
  intros T World cfg xt kernel w A jobz m n Hshape k.
  subst k. split; [lia |]. split; [| split].
  - intros TA. unfold singular_values_of_length.
    runs; read_off; rewrite Hshape in *; cbn [at_ nth_error] in *; read_off;
      try reflexivity; try (unfold size, resize; cbn [shape fold_right]; lia);
      eexists; split; reflexivity.
  - intros TS. unfold singular_values_of_length.
    runs; read_off; rewrite Hshape in *; cbn [at_ nth_error] in *; read_off;
      try reflexivity; try (unfold size, resize; cbn [shape fold_right]; lia);
      eexists; split; reflexivity.
  - intros Hstrides Hlayout Hinit.
    exact (gesdd_reaches_kernel T World cfg xt kernel w A jobz m n
             Hshape Hstrides Hlayout Hinit).
Qed.

(** The singular values of a 0-by-2 matrix in mode 'N'. *)
Lemma gesdd_singular_values_length_witness :
  let A := Sample.container column_major [0; 2] in
  let kernel := Sample.scripted (Sample.answer 0 (5 # 2)%Q)
                                (Sample.answer 0 (0 # 1)%Q) in
  shape A = [0; 2] /\
  singular_values_of_length 1
    (gesdd (Sample.lp64 true) Sample.xtensor kernel A "N" (0%nat, [])) /\
  log_of (gesdd (Sample.lp64 true) Sample.xtensor kernel A "N" (0%nat, [])) <> [].
Proof.
  cbv zeta.
  pose proof (gesdd_singular_values_length Q nat (Sample.lp64 true)
                Sample.xtensor
                (Sample.scripted (Sample.answer 0 (5 # 2)%Q)
                                 (Sample.answer 0 (0 # 1)%Q))
                0%nat (Sample.container column_major [0; 2]) "N" 0 2 eq_refl)
    as [_ [Hreal [_ Hreach]]].
  split; [reflexivity |]. split; [exact (Hreal Q_Arithmetic) |].
  assert (Hstrides : strides (Sample.container column_major [0; 2]) <> [])
    by discriminate.
  assert (Hinit : init_u_vt (Sample.lp64 true) Sample.xtensor
                    (default_container Sample.xtensor 2 column_major)
                    (default_container Sample.xtensor 2 column_major)
                    "N" 0 2 <> None)
    by (vm_compute; discriminate).
  exact (proj1 (Hreach Hstrides (fun _ => eq_refl) Hinit) Q_Arithmetic).
Defined.

(** ** Right-hand sides of [gesv] and [gelsd] *)

Lemma front_Forall {A : Type} (P : A -> Prop) (l : list A) (x : A) :
  Forall P l -> front l = Some x -> P x.
Proof.
  intros HP Hx. destruct l as [| y l]; [discriminate |].
  inversion Hx; subst. inversion HP; assumption.
Qed.

Lemma back_Forall {A : Type} (P : A -> Prop) (l : list A) (x : A) :
  Forall P l -> back l = Some x -> P x.
Proof.
  induction l as [| y l IH]; intros HP Hx; [discriminate |].
  inversion HP; subst. destruct l as [| y' l].
  - inversion Hx; subst. assumption.
  - apply IH; assumption.
Qed.

Section RightHandSide.

Variable cfg : config.
Variable b : xexpression.
Hypothesis shape_fits : Forall (Ints.fits_signed (int_bits cfg)) (shape b).
Hypothesis strides_fit : Forall (Ints.fits_signed (int_bits cfg)) (strides b).

Lemma rhs_rule_vector (sf : Z) :
  (1 <? dimension b) = false ->
  front (shape b) = Some sf ->
  rhs_rule b 1 (to_index cfg sf).
Proof.
  intros Hdim Hfront. apply Z.ltb_ge in Hdim.
  unfold to_index.
  rewrite wrap_signed_fits by exact (front_Forall _ _ _ shape_fits Hfront).
  split; intros Hd; [split; [reflexivity | assumption] | lia].
Qed.

Lemma rhs_rule_single_column (sb sf : Z) :
  (1 <? dimension b) = true ->
  back (shape b) = Some sb ->
  (to_index cfg sb =? 1) = true ->
  front (shape b) = Some sf ->
  rhs_rule b (to_index cfg sb) (to_index cfg sf).
Proof.
  intros Hdim Hback Hone Hfront. apply Z.ltb_lt in Hdim. apply Z.eqb_eq in Hone.
  revert Hone. unfold to_index.
  rewrite (wrap_signed_fits _ sb) by exact (back_Forall _ _ _ shape_fits Hback).
  rewrite (wrap_signed_fits _ sf) by exact (front_Forall _ _ _ shape_fits Hfront).
  intros ->. split; intros Hd; [lia |].
  split; [assumption |]. split; [intros Hne; contradiction | intros _; assumption].
Qed.

Lemma rhs_rule_matrix (sb tb : Z) :
  (1 <? dimension b) = true ->
  back (shape b) = Some sb ->
  (to_index cfg sb =? 1) = false ->
  back (strides b) = Some tb ->
  rhs_rule b (to_index cfg sb) (to_index cfg tb).
Proof.
  intros Hdim Hback Hone Hstride. apply Z.ltb_lt in Hdim. apply Z.eqb_neq in Hone.
  revert Hone. unfold to_index.
  rewrite (wrap_signed_fits _ sb) by exact (back_Forall _ _ _ shape_fits Hback).
  rewrite (wrap_signed_fits _ tb) by exact (back_Forall _ _ _ strides_fit Hstride).
  intros Hne. split; intros Hd; [lia |].
  split; [assumption |]. split; [intros _; assumption | intros He; contradiction].
Qed.

End RightHandSide.

(** The step that ends a proof about the right-hand side. *)
Ltac rhs_done :=
  first [ discriminate
        | do 2 eexists; split; [reflexivity |];
          first [ eapply rhs_rule_vector; eassumption
                | eapply rhs_rule_single_column; eassumption
                | eapply rhs_rule_matrix; eassumption ] ].

(** C9, as the code has it. [gesv] and both [gelsd] pass, for a
    one-dimensional [b], 1 as the number of right-hand sides and the length
    of [b] as its leading dimension; for a two-dimensional [b], the last
    shape entry as the number of right-hand sides, and as leading dimension
    the last stride when that number is not 1 and the first shape entry when
    it is 1.  The shape and the strides of [b] are taken to fit the index
    type. *)
Theorem rhs_arguments_follow_rule :
  forall (T World : Type) (cfg : config)
         (kernel : call T -> World -> reply T * World) (w : World)
         (A b : xexpression),
    Forall (Ints.fits_signed (int_bits cfg)) (shape b) ->
    Forall (Ints.fits_signed (int_bits cfg)) (strides b) ->
    (forall c r, In (c, r) (log_of (gesv cfg kernel A b (w, []))) ->
       exists nrhs ldb, rhs_arguments c = Some (nrhs, ldb) /\ rhs_rule b nrhs ldb) /\
    (forall (TA : Arithmetic T) s rcond c r,
       In (c, r) (log_of (gelsd cfg kernel A b s rcond (w, []))) ->
       exists nrhs ldb, rhs_arguments c = Some (nrhs, ldb) /\ rhs_rule b nrhs ldb) /\
    (forall (TS : Scalar T) s rcond c r,
       In (c, r) (log_of (gelsd_complex cfg kernel A b s rcond (w, []))) ->
       exists nrhs ldb, rhs_arguments c = Some (nrhs, ldb) /\ rhs_rule b nrhs ldb).
Proof.
  intros T World cfg kernel w A b Hshape Hstrides.
  split; [| split]; intros;
    match goal with H : In _ _ |- _ => revert H end;
    runs; read_off; rhs_done.
Qed.

(** The rule at a right-hand side of two columns. *)
Lemma rhs_arguments_follow_rule_witness :
  let A := Sample.container column_major [3; 3] in
  let b := Sample.container column_major [3; 2] in
  let ok := Sample.answer 0 (0 # 1)%Q in
  Forall (Ints.fits_signed 32) (shape b) /\
  Forall (Ints.fits_signed 32) (strides b) /\
  (forall c r,
      In (c, r) (log_of (gesv (Sample.lp64 true) (Sample.scripted ok ok) A b
                           (0%nat, []))) ->
      exists nrhs ldb, rhs_arguments c = Some (nrhs, ldb) /\ rhs_rule b nrhs ldb).
Proof.
  cbv zeta.
  assert (Hshape : Forall (Ints.fits_signed 32)
                     (shape (Sample.container column_major [3; 2])))
    by (repeat constructor; unfold Ints.fits_signed; simpl; lia).
  assert (Hstrides : Forall (Ints.fits_signed 32)
                       (strides (Sample.container column_major [3; 2])))
    by (repeat constructor; unfold Ints.fits_signed; simpl; lia).
  split; [exact Hshape |]. split; [exact Hstrides |].
  exact (proj1 (rhs_arguments_follow_rule Q nat (Sample.lp64 true)
                  (Sample.scripted (Sample.answer 0 (0 # 1)%Q)
                                   (Sample.answer 0 (0 # 1)%Q))
                  0%nat (Sample.container column_major [3; 3])
                  (Sample.container column_major [3; 2]) Hshape Hstrides)).
Defined.

(** C9, as the specification words it, fails on a right-hand side with a
    single column: [b] is 3-by-1 with last stride 0, and [gesv] leads it
    with 3, its first shape entry. *)
Lemma gesv_single_column_rhs :
  let A := Sample.container column_major [3; 3] in
  let b := Sample.container column_major [3; 1] in
  let ok := Sample.answer 0 (0 # 1)%Q in
  dimension b = 2 /\
  gesv (Sample.lp64 true) (Sample.scripted ok ok) A b (0%nat, [])
  = (Returned 0, (1%nat, [(cxx_gesv 3 1 A 3 {| usize := 3 |} b 3, ok)])) /\
  ~ rhs_rule_as_specified b 1 3.
Proof.
  cbv zeta. split; [reflexivity |]. split; [vm_compute; reflexivity |].
  intros [_ Hmatrix]. destruct (Hmatrix eq_refl) as [_ Hstride].
  vm_compute in Hstride. discriminate Hstride.
Qed.

(** ** Matrix product *)

Lemma layout_eqb_refl (l : layout_type) : layout_eqb l l = true.
Proof. destruct l; reflexivity. Qed.

Lemma layout_eqb_eq (a b : layout_type) : layout_eqb a b = true -> a = b.
Proof. destruct a, b; (reflexivity || discriminate). Qed.

Lemma view_eval_shape (xt : array_library) (l : layout_type) (e : xexpression) :
  shape (view_eval xt l e) = shape e.
Proof. unfold view_eval. destruct (_ && _); reflexivity. Qed.

Lemma view_eval_layout (xt : array_library) (l : layout_type) (e : xexpression) :
  layout (view_eval xt l e) = l.
Proof.
  unfold view_eval.
  destruct (layout_eqb (layout e) l) eqn:Hl; [| reflexivity].
  apply layout_eqb_eq in Hl.
  destruct (list_eqb _ _); [exact Hl | reflexivity].
Qed.

Lemma view_eval_strides (xt : array_library) (l : layout_type) (e : xexpression) :
  (forall l' sh, sh <> [] -> compute_strides xt l' sh <> []) ->
  shape e <> [] -> strides e <> [] -> strides (view_eval xt l e) <> [].
Proof.
  intros Hlib Hshape Hstrides. unfold view_eval.
  destruct (_ && _); [exact Hstrides | apply Hlib; exact Hshape].
Qed.

Lemma front_nonempty {A : Type} (l : list A) : l <> [] -> exists x, front l = Some x.
Proof.
  intros Hl. destruct l as [| x l]; [congruence |].
  exists x. reflexivity.
Qed.

Lemma back_nonempty {A : Type} (l : list A) : l <> [] -> exists x, back l = Some x.
Proof.
  intros Hl. destruct (back l) eqn:Hb; [eauto |].
  apply back_None in Hb. contradiction.
Qed.

(** The leading stride of a view in a static layout with strides. *)
Lemma leading_stride_defined (e : xexpression) :
  layout e <> dynamic -> strides e <> [] ->
  exists s,
    match layout e with
    | column_major => back (strides e)
    | row_major => front (strides e)
    | dynamic => None
    end = Some s.
Proof.
  intros Hl Hs. destruct (layout e); [| | contradiction].
  - apply front_nonempty; exact Hs.
  - apply back_nonempty; exact Hs.
Qed.

(** With 2-D operands and a result in a static layout, [gemm] reaches the
    kernel once; the dimensions it passes are those of the result of the
    product and, for the contraction, that of [op(B)]. *)
Lemma gemm_dispatch :
  forall (T World : Type) (cfg : config) (xt : array_library)
         (kernel : call T -> World -> reply T * World) (w : World)
         (A B result : xexpression) (transpose_A transpose_B : ascii)
         (alpha beta : T) (a0 a1 b0 b1 : Z),
    shape A = [a0; a1] ->
    shape B = [b0; b1] ->
    layout result <> dynamic ->
    strides A <> [] -> strides B <> [] -> strides result <> [] ->
    (forall l sh, sh <> [] -> compute_strides xt l sh <> []) ->
    exists order ldA ldB ldC r w',
      gemm cfg xt kernel A B result transpose_A transpose_B alpha beta (w, [])
      = (Returned tt,
         (w',
          [(cxx_gemm order
              (if truthy transpose_A then Trans else NoTrans)
              (if truthy transpose_B then Trans else NoTrans)
              (to_blas_idx cfg (if truthy transpose_A then a1 else a0))
              (to_blas_idx cfg (if truthy transpose_B then b0 else b1))
              (to_blas_idx cfg (if truthy transpose_B then b1 else b0))
              alpha (view_eval xt (layout result) A) ldA
              (view_eval xt (layout result) B) ldB beta result ldC, r)])).
Proof.
  intros T World cfg xt kernel w A B result tA tB alpha beta a0 a1 b0 b1
         HA HB Hstatic HsA HsB HsC Hlib.
  assert (HnA : shape A <> []) by (rewrite HA; discriminate).
  assert (HnB : shape B <> []) by (rewrite HB; discriminate).
  destruct (leading_stride_defined (view_eval xt (layout result) A)) as [sA HdA];
    [rewrite view_eval_layout; exact Hstatic
    | apply view_eval_strides; assumption |].
  destruct (leading_stride_defined (view_eval xt (layout result) B)) as [sB HdB];
    [rewrite view_eval_layout; exact Hstatic
    | apply view_eval_strides; assumption |].
  destruct (leading_stride_defined result Hstatic HsC) as [sC HdC].
  unfold gemm, get_leading_stride, get_blas_storage_order, XTENSOR_ASSERT,
    dimension.
  rewrite HdA, HdB, HdC.
  rewrite !view_eval_shape, !view_eval_layout, HA, HB, !layout_eqb_refl.
  cbn [List.length Z.of_nat negb andb at_ nth_error].
  rewrite !andb_false_r.
  destruct (layout result) eqn:Hl; [| | contradiction];
    destruct (truthy tA), (truthy tB);
    unfold lift, invoke, bind, ret, throw; cbn beta iota zeta;
    cbn [layout_eqb nth_error];
    match goal with
    | |- context [kernel ?c w] => destruct (kernel c w) as [r w'] eqn:Hk
    end;
    do 6 eexists; reflexivity.
Qed.

(** C5, as the specification words it, fails: a 2-by-3 [A] and a 2-by-2 [B],
    neither transposed, disagree on the contraction dimension, and the
    kernel is called all the same. *)
Lemma gemm_mismatch_reaches_kernel :
  let A := Sample.container column_major [2; 3] in
  let B := Sample.container column_major [2; 2] in
  let C := Sample.container column_major [2; 2] in
  let ok := Sample.answer 0 (0 # 1)%Q in
  contraction_of_A zero A = Some 3 /\
  contraction_of_B zero B = Some 2 /\
  ~ rejected_before_kernel
      (gemm (Sample.lp64 true) Sample.xtensor (Sample.scripted ok ok)
         A B C zero zero (1 # 1)%Q (0 # 1)%Q (0%nat, [])).
Proof.
  cbv zeta. split; [reflexivity |]. split; [reflexivity |].
  intros [Hlog _]. vm_compute in Hlog. discriminate Hlog.
Qed.

(** C5, as the code has it. [gemm] compares no contraction dimensions: with
    2-D operands and a result in a static layout it calls the kernel exactly
    once and returns, and the contraction count it passes is the one of
    [op(B)] alone, whatever the one of [op(A)]. *)
Theorem gemm_leaves_contraction_unchecked :
  forall (T World : Type) (cfg : config) (xt : array_library)
         (kernel : call T -> World -> reply T * World) (w : World)
         (A B result : xexpression) (transpose_A transpose_B : ascii)
         (alpha beta : T) (a0 a1 b0 b1 : Z),
    shape A = [a0; a1] ->
    shape B = [b0; b1] ->
    layout result <> dynamic ->
    strides A <> [] -> strides B <> [] -> strides result <> [] ->
    (forall l sh, sh <> [] -> compute_strides xt l sh <> []) ->
    exists c r w' m n k kB,
      gemm cfg xt kernel A B result transpose_A transpose_B alpha beta (w, [])
      = (Returned tt, (w', [(c, r)])) /\
      product_dimensions c = Some (m, n, k) /\
      contraction_of_B transpose_B B = Some kB /\
      k = to_blas_idx cfg kB.
Proof.
  intros T World cfg xt kernel w A B result tA tB alpha beta a0 a1 b0 b1
         HA HB Hstatic HsA HsB HsC Hlib.
  destruct (gemm_dispatch T World cfg xt kernel w A B result tA tB alpha beta
              a0 a1 b0 b1 HA HB Hstatic HsA HsB HsC Hlib)
    as (order & ldA & ldB & ldC & r & w' & Hrun).
  do 3 eexists. exists (to_blas_idx cfg (if truthy tA then a1 else a0)).
  exists (to_blas_idx cfg (if truthy tB then b0 else b1)).
  exists (to_blas_idx cfg (if truthy tB then b1 else b0)).
  exists (if truthy tB then b1 else b0).
  split; [exact Hrun |]. split; [reflexivity |]. split; [| reflexivity].
  unfold contraction_of_B. rewrite HB. destruct (truthy tB); reflexivity.
Qed.

(** The sample strides give every dimension a stride. *)
Lemma sample_strides_nonempty (l : layout_type) (sh : list Z) :
  sh <> [] -> compute_strides Sample.xtensor l sh <> [].
Proof.
  intros Hsh. cbn [compute_strides Sample.xtensor]. unfold Sample.xtensor_strides.
  destruct l.
  - destruct (rev sh) as [| d sh'] eqn:Hrev.
    + apply (f_equal (@rev Z)) in Hrev. rewrite rev_involutive in Hrev.
      contradiction.
    + cbn [Sample.strides_from rev]. intros Habs.
      apply app_eq_nil in Habs. destruct Habs as [_ Habs]. discriminate Habs.
  - destruct sh; [contradiction | discriminate].
  - destruct sh; [contradiction | discriminate].
Defined.

(** The product of a 2-by-3 and a 2-by-2 matrix reaches the kernel. *)
Lemma gemm_leaves_contraction_unchecked_witness :
  let A := Sample.container column_major [2; 3] in
  let B := Sample.container column_major [2; 2] in
  let C := Sample.container column_major [2; 2] in
  let ok := Sample.answer 0 (0 # 1)%Q in
  shape A = [2; 3] /\ shape B = [2; 2] /\ layout C <> dynamic /\
  exists c r w' m n k kB,
    gemm (Sample.lp64 true) Sample.xtensor (Sample.scripted ok ok)
      A B C zero zero (1 # 1)%Q (0 # 1)%Q (0%nat, [])
    = (Returned tt, (w', [(c, r)])) /\
    product_dimensions c = Some (m, n, k) /\
    contraction_of_B zero B = Some kB /\
    k = to_blas_idx (Sample.lp64 true) kB.
Proof.
  cbv zeta.
  assert (Hstatic : layout (Sample.container column_major [2; 2]) <> dynamic)
    by discriminate.
  split; [reflexivity |]. split; [reflexivity |]. split; [exact Hstatic |].
  apply (gemm_leaves_contraction_unchecked Q nat (Sample.lp64 true)
           Sample.xtensor
           (Sample.scripted (Sample.answer 0 (0 # 1)%Q)
                            (Sample.answer 0 (0 # 1)%Q))
           0%nat (Sample.container column_major [2; 3])
           (Sample.container column_major [2; 2])
           (Sample.container column_major [2; 2]) zero zero
           (1 # 1)%Q (0 # 1)%Q 2 3 2 2 eq_refl eq_refl Hstatic);
    [discriminate | discriminate | discriminate | exact sample_strides_nonempty].
Defined.

(** C6. [gemm] with [transpose_A] set and [transpose_B] clear, on an m-by-n
    [A] and an m-by-k [B]: the kernel is called once, and its first two
    dimension arguments are n, the column count of [A], and k, the column
    count of [B], the shape of the result.  The counts are taken to fit the
    index type of the backend. *)
Theorem gemm_transposed_A_dimensions :
  forall (T World : Type) (cfg : config) (xt : array_library)
         (kernel : call T -> World -> reply T * World) (w : World)
         (A B result : xexpression) (alpha beta : T) (m n k : Z),
    shape A = [m; n] ->
    shape B = [m; k] ->
    Ints.fits_signed (blas_idx_bits cfg) n ->
    Ints.fits_signed (blas_idx_bits cfg) k ->
    layout result <> dynamic ->
    strides A <> [] -> strides B <> [] -> strides result <> [] ->
    (forall l sh, sh <> [] -> compute_strides xt l sh <> []) ->
    exists c r w' contraction,
      gemm cfg xt kernel A B result (char_of_bool true) (char_of_bool false)
        alpha beta (w, [])
      = (Returned tt, (w', [(c, r)])) /\
      product_dimensions c = Some (n, k, contraction).
Proof.
  intros T World cfg xt kernel w A B result alpha beta m n k
         HA HB Hn Hk Hstatic HsA HsB HsC Hlib.
  destruct (gemm_dispatch T World cfg xt kernel w A B result
              (char_of_bool true) (char_of_bool false) alpha beta
              m n m k HA HB Hstatic HsA HsB HsC Hlib)
    as (order & ldA & ldB & ldC & r & w' & Hrun).
  cbn [char_of_bool truthy Ascii.eqb Bool.eqb andb negb one zero] in Hrun.
  do 4 eexists. split; [exact Hrun |].
  cbn [product_dimensions]. unfold to_blas_idx.
  rewrite (wrap_signed_fits _ n Hn), (wrap_signed_fits _ k Hk). reflexivity.
Qed.

(** The transposed product of a 4-by-2 and a 4-by-3 matrix. *)
Lemma gemm_transposed_A_dimensions_witness :
  let A := Sample.container row_major [4; 2] in
  let B := Sample.container row_major [4; 3] in
  let C := Sample.container row_major [2; 3] in
  let ok := Sample.answer 0 (0 # 1)%Q in
  shape A = [4; 2] /\ shape B = [4; 3] /\
  Ints.fits_signed 32 2 /\ Ints.fits_signed 32 3 /\
  exists c r w' contraction,
    gemm (Sample.lp64 true) Sample.xtensor (Sample.scripted ok ok)
      A B C (char_of_bool true) (char_of_bool false) (1 # 1)%Q (0 # 1)%Q
      (0%nat, [])
    = (Returned tt, (w', [(c, r)])) /\
    product_dimensions c = Some (2, 3, contraction).
Proof.
  cbv zeta.
  assert (Hn : Ints.fits_signed 32 2) by (unfold Ints.fits_signed; simpl; lia).
  assert (Hk : Ints.fits_signed 32 3) by (unfold Ints.fits_signed; simpl; lia).
  split; [reflexivity |]. split; [reflexivity |].
  split; [exact Hn |]. split; [exact Hk |].
  apply (gemm_transposed_A_dimensions Q nat (Sample.lp64 true) Sample.xtensor
           (Sample.scripted (Sample.answer 0 (0 # 1)%Q)
                            (Sample.answer 0 (0 # 1)%Q))
           0%nat (Sample.container row_major [4; 2])
           (Sample.container row_major [4; 3])
           (Sample.container row_major [2; 3])
           (1 # 1)%Q (0 # 1)%Q 4 2 3 eq_refl eq_refl Hn Hk);
    [discriminate | discriminate | discriminate | discriminate
    | exact sample_strides_nonempty].
Defined.

(** ** Inner products *)

Section Conjugation.

Context {F : Type}.
Variable zero_F : F.
Variables add_F sub_F mul_F : F -> F -> F.
Variable opp_F : F -> F.

Lemma read_map (f : complex F -> complex F) (buf : list (complex F)) (i : Z) :
  read (map f buf) i = option_map f (read buf i).
Proof.
  unfold read. destruct (i <? 0); [reflexivity |].
  apply nth_error_map.
Qed.

(** Conjugating inside the kernel or in the buffer gives the same sum. *)
Lemma strided_sum_conj (k : nat) (x y : list (complex F)) (ox incx oy incy : Z) :
  strided_sum zero_F add_F
    (fun xv yv => cmul add_F sub_F mul_F (conj opp_F xv) yv)
    k x ox incx y oy incy
  = strided_sum zero_F add_F (cmul add_F sub_F mul_F)
      k (map (conj opp_F) x) ox incx y oy incy.
Proof.
  induction k as [| k IH]; [reflexivity |].
  cbn [strided_sum]. rewrite IH, read_map.
  destruct (strided_sum zero_F add_F (cmul add_F sub_F mul_F) k
              (map (conj opp_F) x) ox incx y oy incy);
    [| reflexivity].
  destruct (read x (ox + Z.of_nat k * incx)); reflexivity.
Qed.

End Conjugation.

Example dot_of_two_elements :
  dot 0 Z.add Z.sub Z.mul Z.opp (Sample.lp64 true)
    (Sample.vector [Sample.Zi 1 2; Sample.Zi 3 4])
    (Sample.vector [Sample.Zi 0 1; Sample.Zi 5 6])
  = Returned (Sample.Zi 41 (-1)).
Proof. vm_compute. reflexivity. Qed.

Example dotu_of_two_elements :
  dotu 0 Z.add Z.sub Z.mul (Sample.lp64 true)
    (Sample.vector [Sample.Zi 1 2; Sample.Zi 3 4])
    (Sample.vector [Sample.Zi 0 1; Sample.Zi 5 6])
  = Returned (Sample.Zi (-11) 39).
Proof. vm_compute. reflexivity. Qed.

(** C8. [dot] conjugates its first operand and [dotu] does not: for all
    complex vectors, whatever the arithmetic of their components,
    [dot a b] is [dotu (conjugate a) b]; and [dot a b] is not in general the
    conjugate of [dotu a b], as the vectors [1] and [i] show. *)
Theorem dot_conjugates_first_operand :
  (forall (F : Type) (zero_F : F) (add_F sub_F mul_F : F -> F -> F)
          (opp_F : F -> F) (cfg : config) (a b : xcontainer (complex F)),
      dot zero_F add_F sub_F mul_F opp_F cfg a b
      = dotu zero_F add_F sub_F mul_F cfg (conjugate opp_F a) b) /\
  (exists (a b : xcontainer (complex Z)) (x y : complex Z),
      List.length (raw_data a) = List.length (raw_data b) /\
      dot 0 Z.add Z.sub Z.mul Z.opp (Sample.lp64 true) a b = Returned x /\
      dotu 0 Z.add Z.sub Z.mul (Sample.lp64 true) a b = Returned y /\
      x <> conj Z.opp y).
Proof.
  split.
  - intros F zero_F add_F sub_F mul_F opp_F cfg a b.
    unfold dot, dotu, conjugate, view_eval_container, cxxblas_dot, cxxblas_dotu.
    cbn [descr raw_data].
    destruct (enable_assert cfg && negb (dimension (descr a) =? 1));
      [reflexivity |].
    destruct (at_ (shape (descr a)) 0) as [n |]; [| reflexivity].
    destruct (front (strides (descr a))) as [sa |]; [| reflexivity].
    destruct (front (strides (descr b))) as [sb |]; [| reflexivity].
    rewrite strided_sum_conj. reflexivity.
  - exists (Sample.vector [Sample.Zi 1 0]), (Sample.vector [Sample.Zi 0 1]).
    exists (Sample.Zi 0 1), (Sample.Zi 0 1).
    split; [reflexivity |]. split; [vm_compute; reflexivity |].
    split; [vm_compute; reflexivity |]. vm_compute. discriminate.
Qed.

(** The positive probe status 4 ends [getri] after the probe. *)
Lemma getri_positive_probe_aborts_witness :
  let A := Sample.container column_major [2; 2] in
  let piv := {| usize := 2 |} in
  let failed := Sample.answer 4 (0 # 1)%Q in
  0 < info failed /\
  outcome_of (getri (Sample.lp64 true) (Sample.scripted failed failed) A piv
                (0%nat, []))
  = Raised (runtime_error "Could not find workspace size for getri.").
Proof.
  cbv zeta.
  assert (Hpos : 0 < info (Sample.answer 4 (0 # 1)%Q)) by (simpl; lia).
  assert (Hlog : log_of (getri (Sample.lp64 true)
                           (Sample.scripted (Sample.answer 4 (0 # 1)%Q)
                                            (Sample.answer 4 (0 # 1)%Q))
                           (Sample.container column_major [2; 2])
                           {| usize := 2 |} (0%nat, []))
                 = [(cxx_getri 2 (Sample.container column_major [2; 2]) 2
                       {| usize := 2 |} {| usize := 1 |} (-1),
                     Sample.answer 4 (0 # 1)%Q)])
    by (vm_compute; reflexivity).
  split; [exact Hpos |].
  exact (proj2 (getri_positive_probe_aborts Q nat Q_Arithmetic (Sample.lp64 true)
                  (Sample.scripted (Sample.answer 4 (0 # 1)%Q)
                                   (Sample.answer 4 (0 # 1)%Q))
                  0%nat (Sample.container column_major [2; 2]) {| usize := 2 |}
                  _ _ _ Hlog Hpos)).
Defined.

(** ** Assertions *)

(** An assertion on the matrix argument that a run has passed although the
    argument violates it. *)
Ltac passed_assertion :=
  match goal with
  | Hon : enable_assert ?cfg = true,
    Hd : enable_assert ?cfg && negb (dimension ?A =? 2) = false,
    Hbad : dimension ?A <> 2 |- _ =>
      rewrite Hon in Hd; cbn [andb] in Hd;
      apply negb_false_iff, Z.eqb_eq in Hd; contradiction
  | Hon : enable_assert ?cfg = true,
    Hl : enable_assert ?cfg && negb (layout_eqb (layout ?A) column_major) = false,
    Hbad : layout ?A <> column_major |- _ =>
      rewrite Hon in Hl; cbn [andb] in Hl;
      apply negb_false_iff, layout_eqb_eq in Hl; contradiction
  end.

(** With assertions on, a matrix argument that is not two-dimensional or not
    column-major is refused by every wrapper that asserts it, before any
    kernel call. *)
Theorem assertions_guard_the_matrix :
  forall (T World : Type) (cfg : config) (xt : array_library)
         (kernel : call T -> World -> reply T * World) (w : World)
         (A : xexpression),
    enable_assert cfg = true ->
    dimension A <> 2 \/ layout A <> column_major ->
    (forall b, refused_by_assertion (gesv cfg kernel A b (w, []))) /\
    (forall piv, refused_by_assertion (getrf cfg kernel A piv (w, []))) /\
    (forall uplo, refused_by_assertion (potr cfg kernel A uplo (w, []))) /\
    (forall (TS : Scalar T) tau,
        refused_by_assertion (geqrf cfg kernel A tau (w, []))) /\
    (forall (TA : Arithmetic T) piv,
        refused_by_assertion (getri cfg kernel A piv (w, []))) /\
    (forall (TA : Arithmetic T) jobz,
        refused_by_assertion (gesdd cfg xt kernel A jobz (w, []))) /\
    (forall (TS : Scalar T) jobz,
        refused_by_assertion (gesdd_complex cfg xt kernel A jobz (w, []))) /\
    (forall (TA : Arithmetic T) jobvl jobvr wr wi VL VR,
        refused_by_assertion (geev cfg kernel A jobvl jobvr wr wi VL VR (w, []))) /\
    (forall (TS : Scalar T) jobvl jobvr ev VL VR,
        refused_by_assertion
          (geev_complex cfg kernel A jobvl jobvr ev VL VR (w, []))) /\
    (forall (TA : Arithmetic T) jobz uplo ev,
        refused_by_assertion (syevd cfg kernel A jobz uplo ev (w, []))) /\
    (forall (TS : Scalar T) jobz uplo ev,
        refused_by_assertion (heevd cfg kernel A jobz uplo ev (w, []))).
Proof.
  intros T World cfg xt kernel w A Hon Hbad.
  repeat match goal with |- _ /\ _ => split end; intros;
    unfold refused_by_assertion;
    runs; read_off; try reflexivity; passed_assertion.
Qed.

(** The guard on a vector handed to [geqrf] as its matrix. *)
Lemma assertions_guard_the_matrix_witness :
  let A := Sample.container column_major [3] in
  let tau := Sample.container column_major [3] in
  let ok := Sample.answer 0 (8 # 1)%Q in
  enable_assert (Sample.lp64 true) = true /\
  dimension A <> 2 /\
  refused_by_assertion
    (geqrf (Sample.lp64 true) (Sample.scripted ok ok) A tau (0%nat, [])).
Proof.
  cbv zeta.
  assert (Hdim : dimension (Sample.container column_major [3]) <> 2)
    by discriminate.
  split; [reflexivity |]. split; [exact Hdim |].
  exact (proj1 (proj2 (proj2 (proj2
           (assertions_guard_the_matrix Q nat (Sample.lp64 true) Sample.xtensor
              (Sample.scripted (Sample.answer 0 (8 # 1)%Q)
                               (Sample.answer 0 (8 # 1)%Q))
              0%nat (Sample.container column_major [3])
              eq_refl (or_introl Hdim))))) Q_Scalar
           (Sample.container column_major [3])).
Defined.

(** On a two-dimensional column-major matrix the assertions change nothing:
    a wrapper runs alike with assertions on and off. *)
Theorem assertions_leave_valid_runs_alone :
  forall (T World : Type) (cfg : config) (xt : array_library)
         (kernel : call T -> World -> reply T * World) (s : machine T World)
         (A : xexpression) (on : bool),
    dimension A = 2 ->
    layout A = column_major ->
    (forall b, dimension b <= 2 -> layout b = column_major ->
        gesv (set_assert on cfg) kernel A b s = gesv cfg kernel A b s) /\
    (forall piv,
        getrf (set_assert on cfg) kernel A piv s = getrf cfg kernel A piv s) /\
    (forall uplo,
        potr (set_assert on cfg) kernel A uplo s = potr cfg kernel A uplo s) /\
    (forall (TS : Scalar T) tau,
        geqrf (set_assert on cfg) kernel A tau s = geqrf cfg kernel A tau s) /\
    (forall (TA : Arithmetic T) piv,
        getri (set_assert on cfg) kernel A piv s = getri cfg kernel A piv s) /\
    (forall (TA : Arithmetic T) jobz,
        gesdd (set_assert on cfg) xt kernel A jobz s
        = gesdd cfg xt kernel A jobz s) /\
    (forall (TS : Scalar T) jobz,
        gesdd_complex (set_assert on cfg) xt kernel A jobz s
        = gesdd_complex cfg xt kernel A jobz s) /\
    (forall (TA : Arithmetic T) jobvl jobvr wr wi VL VR,
        geev (set_assert on cfg) kernel A jobvl jobvr wr wi VL VR s
        = geev cfg kernel A jobvl jobvr wr wi VL VR s) /\
    (forall (TS : Scalar T) jobvl jobvr ev VL VR,
        geev_complex (set_assert on cfg) kernel A jobvl jobvr ev VL VR s
        = geev_complex cfg kernel A jobvl jobvr ev VL VR s) /\
    (forall (TA : Arithmetic T) jobz uplo ev,
        syevd (set_assert on cfg) kernel A jobz uplo ev s
        = syevd cfg kernel A jobz uplo ev s) /\
    (forall (TS : Scalar T) jobz uplo ev,
        heevd (set_assert on cfg) kernel A jobz uplo ev s
        = heevd cfg kernel A jobz uplo ev s).
Proof.
  intros T World cfg xt kernel s A on Hdim Hlayout.
  repeat match goal with |- _ /\ _ => split end; intros;
    unfold gesv, getrf, potr, geqrf, getri, gesdd, gesdd_complex, geev,
      geev_complex, syevd, heevd, XTENSOR_ASSERT;
    rewrite Hdim, Hlayout;
    try match goal with
        | Hb : dimension ?b <= 2, Hl : layout ?b = column_major |- _ =>
            rewrite (proj2 (Z.leb_le _ _) Hb), Hl
        end;
    cbn [Z.eqb Pos.eqb layout_eqb negb];
    rewrite !andb_false_r; reflexivity.
Qed.

(** A 2-by-2 system solved with assertions on and off. *)
Lemma assertions_leave_valid_runs_alone_witness :
  let A := Sample.container column_major [2; 2] in
  let b := Sample.container column_major [2] in
  let ok := Sample.answer 0 (0 # 1)%Q in
  dimension A = 2 /\ layout A = column_major /\
  gesv (set_assert true (Sample.lp64 false)) (Sample.scripted ok ok) A b
    (0%nat, [])
  = gesv (Sample.lp64 false) (Sample.scripted ok ok) A b (0%nat, []).
Proof.
  cbv zeta.
  assert (Hb : dimension (Sample.container column_major [2]) <= 2)
    by (vm_compute; discriminate).
  split; [reflexivity |]. split; [reflexivity |].
  exact (proj1 (assertions_leave_valid_runs_alone Q nat (Sample.lp64 false)
                  Sample.xtensor
                  (Sample.scripted (Sample.answer 0 (0 # 1)%Q)
                                   (Sample.answer 0 (0 # 1)%Q))
                  (0%nat, []) (Sample.container column_major [2; 2]) true
                  eq_refl eq_refl)
           (Sample.container column_major [2]) Hb eq_refl).
Defined.

(** [orgqr], [ungqr] and both [gelsd] assert nothing: whatever they are
    given and however the build is configured, they never end with a failed
    assertion. *)
Theorem unguarded_wrappers_never_assert :
  forall (T World : Type) (cfg : config)
         (kernel : call T -> World -> reply T * World) (w : World),
    (forall (TA : Arithmetic T) A tau n,
        outcome_of (orgqr cfg kernel A tau n (w, [])) <> Raised assertion_failure) /\
    (forall (TS : Scalar T) A tau n,
        outcome_of (ungqr cfg kernel A tau n (w, [])) <> Raised assertion_failure) /\
    (forall (TA : Arithmetic T) A b s rcond,
        outcome_of (gelsd cfg kernel A b s rcond (w, []))
        <> Raised assertion_failure) /\
    (forall (TS : Scalar T) A b s rcond,
        outcome_of (gelsd_complex cfg kernel A b s rcond (w, []))
        <> Raised assertion_failure).
Proof.
  intros T World cfg kernel w.
  repeat match goal with |- _ /\ _ => split end; intros;
    runs; read_off; discriminate.
Qed.

(** ** The column count of [orgqr] and [ungqr] *)

(** Leaving [n] at its default -1 is the same as passing the column count of
    [A]. *)
Theorem default_n_is_column_count :
  forall (T World : Type) (cfg : config)
         (kernel : call T -> World -> reply T * World) (s : machine T World)
         (A tau : xexpression) (columns : Z),
    at_ (shape A) 1 = Some columns ->
    (forall TA : Arithmetic T,
        orgqr cfg kernel A tau (-1) s
        = orgqr cfg kernel A tau (to_index cfg columns) s) /\
    (forall TS : Scalar T,
        ungqr cfg kernel A tau (-1) s
        = ungqr cfg kernel A tau (to_index cfg columns) s).
Proof.
  intros T World cfg kernel s A tau columns Hcolumns.
  split; intros; unfold orgqr, ungqr; rewrite Hcolumns;
    cbn [Z.eqb Pos.eqb];
    destruct (to_index cfg columns =? -1); reflexivity.
Qed.

(** [orgqr] on a 4-by-3 matrix with [n] left out and with [n] = 3. *)
Lemma default_n_is_column_count_witness :
  let A := Sample.container column_major [4; 3] in
  let tau := Sample.container column_major [3] in
  let kernel := Sample.scripted (Sample.answer 0 (96 # 1)%Q)
                                (Sample.answer 0 (0 # 1)%Q) in
  at_ (shape A) 1 = Some 3 /\
  orgqr (Sample.lp64 true) kernel A tau (-1) (0%nat, [])
  = orgqr (Sample.lp64 true) kernel A tau
      (to_index (Sample.lp64 true) 3) (0%nat, []).
Proof.
  cbv zeta. split; [reflexivity |].
  exact (proj1 (default_n_is_column_count Q nat (Sample.lp64 true)
                  (Sample.scripted (Sample.answer 0 (96 # 1)%Q)
                                   (Sample.answer 0 (0 # 1)%Q))
                  (0%nat, []) (Sample.container column_major [4; 3])
                  (Sample.container column_major [3]) 3 eq_refl)
           Q_Arithmetic).
Defined.

(** ** Probe and execute *)

(** In every wrapper with a workspace query, the execute call states the
    problem that was probed: routine, job flags, dimensions, arrays and leading
    dimensions agree, and so do the scratch vectors that are not resized in
    between.  Only the scratch that the probe sized differs. *)
Theorem execute_repeats_the_probed_problem :
  forall (T World : Type) (cfg : config) (xt : array_library)
         (kernel : call T -> World -> reply T * World) (w : World),
    (forall (TS : Scalar T) A tau,
        probe_and_execute_agree (geqrf cfg kernel A tau (w, []))) /\
    (forall (TA : Arithmetic T) A tau n,
        probe_and_execute_agree (orgqr cfg kernel A tau n (w, []))) /\
    (forall (TS : Scalar T) A tau n,
        probe_and_execute_agree (ungqr cfg kernel A tau n (w, []))) /\
    (forall (TA : Arithmetic T) A piv,
        probe_and_execute_agree (getri cfg kernel A piv (w, []))) /\
    (forall (TA : Arithmetic T) A jobz,
        probe_and_execute_agree (gesdd cfg xt kernel A jobz (w, []))) /\
    (forall (TS : Scalar T) A jobz,
        probe_and_execute_agree (gesdd_complex cfg xt kernel A jobz (w, []))) /\
    (forall (TA : Arithmetic T) A jobvl jobvr wr wi VL VR,
        probe_and_execute_agree
          (geev cfg kernel A jobvl jobvr wr wi VL VR (w, []))) /\
    (forall (TS : Scalar T) A jobvl jobvr ev VL VR,
        probe_and_execute_agree
          (geev_complex cfg kernel A jobvl jobvr ev VL VR (w, []))) /\
    (forall (TA : Arithmetic T) A jobz uplo ev,
        probe_and_execute_agree (syevd cfg kernel A jobz uplo ev (w, []))) /\
    (forall (TS : Scalar T) A jobz uplo ev,
        probe_and_execute_agree (heevd cfg kernel A jobz uplo ev (w, []))) /\
    (forall (TA : Arithmetic T) A b s rcond,
        probe_and_execute_agree (gelsd cfg kernel A b s rcond (w, []))) /\
    (forall (TS : Scalar T) A b s rcond,
        probe_and_execute_agree (gelsd_complex cfg kernel A b s rcond (w, []))).
Proof.
  intros T World cfg xt kernel w.
  repeat match goal with |- _ /\ _ => split end; intros;
    unfold probe_and_execute_agree;
    runs; read_off; reflexivity.
Qed.

Lemma to_index_minus_one (cfg : config) :
  0 < int_bits cfg -> to_index cfg (-1) = -1.
Proof.
  intros Hbits. unfold to_index. apply wrap_signed_fits.
  unfold Ints.fits_signed.
  assert (0 < 2 ^ (int_bits cfg - 1)) by (apply Z.pow_pos_nonneg; lia).
  lia.
Qed.

(** The first kernel call of every wrapper with a workspace query is a size
    probe: its scratch has one element and its scratch-size argument is -1,
    for any index type of at least one bit. *)
Theorem first_call_is_a_probe :
  forall (T World : Type) (cfg : config) (xt : array_library)
         (kernel : call T -> World -> reply T * World) (w : World),
    0 < int_bits cfg ->
    (forall (TS : Scalar T) A tau,
        opens_with_probe (geqrf cfg kernel A tau (w, []))) /\
    (forall (TA : Arithmetic T) A tau n,
        opens_with_probe (orgqr cfg kernel A tau n (w, []))) /\
    (forall (TS : Scalar T) A tau n,
        opens_with_probe (ungqr cfg kernel A tau n (w, []))) /\
    (forall (TA : Arithmetic T) A piv,
        opens_with_probe (getri cfg kernel A piv (w, []))) /\
    (forall (TA : Arithmetic T) A jobz,
        opens_with_probe (gesdd cfg xt kernel A jobz (w, []))) /\
    (forall (TS : Scalar T) A jobz,
        opens_with_probe (gesdd_complex cfg xt kernel A jobz (w, []))) /\
    (forall (TA : Arithmetic T) A jobvl jobvr wr wi VL VR,
        opens_with_probe (geev cfg kernel A jobvl jobvr wr wi VL VR (w, []))) /\
    (forall (TS : Scalar T) A jobvl jobvr ev VL VR,
        opens_with_probe
          (geev_complex cfg kernel A jobvl jobvr ev VL VR (w, []))) /\
    (forall (TA : Arithmetic T) A jobz uplo ev,
        opens_with_probe (syevd cfg kernel A jobz uplo ev (w, []))) /\
    (forall (TS : Scalar T) A jobz uplo ev,
        opens_with_probe (heevd cfg kernel A jobz uplo ev (w, []))) /\
    (forall (TA : Arithmetic T) A b s rcond,
        opens_with_probe (gelsd cfg kernel A b s rcond (w, []))) /\
    (forall (TS : Scalar T) A b s rcond,
        opens_with_probe (gelsd_complex cfg kernel A b s rcond (w, []))).
Proof.
  intros T World cfg xt kernel w Hbits.
  pose proof (to_index_minus_one cfg Hbits) as Hminus.
  repeat match goal with |- _ /\ _ => split end; intros;
    unfold opens_with_probe;
    runs; read_off; try reflexivity;
    unfold is_probe; cbn [lwork_of]; rewrite ?Hminus; reflexivity.
Qed.

(** The probe that opens [syevd] on a 2-by-2 matrix. *)
Lemma first_call_is_a_probe_witness :
  let A := Sample.container column_major [2; 2] in
  let ev := Sample.container column_major [2] in
  let ok := Sample.answer 0 (9 # 1)%Q in
  0 < int_bits (Sample.lp64 true) /\
  opens_with_probe
    (syevd (Sample.lp64 true) (Sample.scripted ok ok) A "N" "L" ev (0%nat, [])).
Proof.
  cbv zeta.
  assert (Hbits : 0 < int_bits (Sample.lp64 true)) by (simpl; lia).
  split; [exact Hbits |].
  pose proof (first_call_is_a_probe Q nat (Sample.lp64 true) Sample.xtensor
                (Sample.scripted (Sample.answer 0 (9 # 1)%Q)
                                 (Sample.answer 0 (9 # 1)%Q))
                0%nat Hbits)
    as (_ & _ & _ & _ & _ & _ & _ & _ & Hsyevd & _).
  exact (Hsyevd Q_Arithmetic (Sample.container column_major [2; 2]) "N"%char
           "L"%char (Sample.container column_major [2])).
Defined.

(** ** Auxiliary scratch *)

Example heevd_run :
  let A := Sample.container column_major [3; 3] in
  let ev := Sample.container column_major [3] in
  let probe := {| info := 0; work0 := {| re := (34 # 1)%Q; im := (0 # 1)%Q |};
                  rwork0 := (25 # 1)%Q; iwork0 := 18 |} in
  let exec := Sample.answer 0 {| re := (0 # 1)%Q; im := (0 # 1)%Q |} in
  log_of (heevd (Sample.lp64 true) (Sample.scripted probe exec) A "V" "L" ev
            (0%nat, []))
  = [(cxx_heevd "V" "L" 3 A 3 ev {| usize := 1 |} (-1) {| usize := 1 |} (-1)
        {| usize := 1 |} (-1), probe);
     (cxx_heevd "V" "L" 3 A 3 ev {| usize := 34 |} 34 {| usize := 25 |} 25
        {| usize := 18 |} 18, exec)].
Proof. vm_compute. reflexivity. Qed.

(** [syevd], [heevd] and both [gelsd] size their integer scratch, and the
    complex ones their real scratch, from what the probe left in the first
    element of each; [syevd] and [heevd] pass those lengths as the size
    arguments too, and the real [gelsd] passes no real scratch. *)
Theorem auxiliary_scratch_has_probed_size :
  forall (T World : Type) (cfg : config)
         (kernel : call T -> World -> reply T * World) (w : World),
    (forall (TA : Arithmetic T) A jobz uplo ev,
        integer_scratch_as_probed cfg true
          (syevd cfg kernel A jobz uplo ev (w, []))) /\
    (forall (TS : Scalar T) A jobz uplo ev,
        integer_scratch_as_probed cfg true
          (heevd cfg kernel A jobz uplo ev (w, [])) /\
        real_scratch_as_probed cfg true
          (heevd cfg kernel A jobz uplo ev (w, []))) /\
    (forall (TA : Arithmetic T) A b s rcond,
        integer_scratch_as_probed cfg false
          (gelsd cfg kernel A b s rcond (w, [])) /\
        (forall c r, In (c, r) (log_of (gelsd cfg kernel A b s rcond (w, []))) ->
           rwork_of c = None)) /\
    (forall (TS : Scalar T) A b s rcond,
        integer_scratch_as_probed cfg false
          (gelsd_complex cfg kernel A b s rcond (w, [])) /\
        real_scratch_as_probed cfg false
          (gelsd_complex cfg kernel A b s rcond (w, []))).
Proof.
  intros T World cfg kernel w.
  repeat match goal with |- _ /\ _ => split end; intros;
    unfold integer_scratch_as_probed, real_scratch_as_probed;
    runs; read_off; try reflexivity;
    (eexists; split; [eassumption | reflexivity]).
Qed.

Lemma to_size_t_small (cfg : config) (z : Z) :
  0 <= z < 2 ^ size_bits cfg -> to_size_t cfg z = z.
Proof. intros Hz. unfold to_size_t, Ints.wrap_unsigned. apply Z.mod_small, Hz. Qed.

(** The real scratch of the complex [gesdd]: the three branches of its
    sizing give two lengths only, since the branch taken for a square matrix
    takes the larger of two lengths of which the first is never the smaller. *)
Lemma complex_gesdd_rwork (cfg : config) (jobz : ascii) (m n : Z) :
  0 <= m -> 0 <= n ->
  5 * Z.min m n * Z.min m n + 5 * Z.min m n < 2 ^ size_bits cfg ->
  (if (jobz =? "N")%char then {| usize := to_size_t cfg (5 * Z.min m n) |}
   else if Z.min m n <? Z.max m n
        then {| usize := to_size_t cfg
                           (5 * Z.min m n * Z.min m n + 5 * Z.min m n) |}
        else {| usize :=
                  Z.max (to_size_t cfg
                           (5 * Z.min m n * Z.min m n + 5 * Z.min m n))
                        (to_size_t cfg
                           (2 * Z.max m n * Z.min m n
                            + 2 * Z.min m n * Z.min m n + Z.min m n)) |})
  = {| usize := if (jobz =? "N")%char then 5 * Z.min m n
                else 5 * Z.min m n * Z.min m n + 5 * Z.min m n |}.
Proof.
  intros Hm Hn Hbound.
  assert (Hmn : 0 <= Z.min m n) by lia.
  destruct (jobz =? "N")%char.
  - rewrite to_size_t_small by nia. reflexivity.
  - destruct (Z.ltb_spec (Z.min m n) (Z.max m n)) as [Hlt | Hge].
    + rewrite to_size_t_small by nia. reflexivity.
    + assert (Hsq : Z.max m n = Z.min m n) by lia. rewrite Hsq.
      rewrite !to_size_t_small by nia. f_equal. nia.
Qed.

(** The scratch that [gesdd] sizes by itself, for a matrix whose sizes do not
    overflow [std::size_t]: the integer scratch has 8 min(m,n) elements in
    both variants; the real scratch of the complex variant has 5 min(m,n)
    elements in mode 'N' and 5 min(m,n)^2 + 5 min(m,n) in every other mode,
    rectangular or square; the real variant passes none. *)
Theorem gesdd_auxiliary_scratch :
  forall (T World : Type) (cfg : config) (xt : array_library)
         (kernel : call T -> World -> reply T * World) (w : World)
         (A : xexpression) (jobz : ascii) (m n : Z),
    shape A = [m; n] ->
    0 <= m -> 0 <= n ->
    8 * Z.min m n < 2 ^ size_bits cfg ->
    5 * Z.min m n * Z.min m n + 5 * Z.min m n < 2 ^ size_bits cfg ->
    (forall (TA : Arithmetic T) c r,
        In (c, r) (log_of (gesdd cfg xt kernel A jobz (w, []))) ->
        iwork_of c = Some ({| usize := 8 * Z.min m n |}, None) /\
        rwork_of c = None) /\
    (forall (TS : Scalar T) c r,
        In (c, r) (log_of (gesdd_complex cfg xt kernel A jobz (w, []))) ->
        iwork_of c = Some ({| usize := 8 * Z.min m n |}, None) /\
        rwork_of c
        = Some ({| usize := if (jobz =? "N")%char then 5 * Z.min m n
                            else 5 * Z.min m n * Z.min m n + 5 * Z.min m n |},
                None)).
Proof.
  intros T World cfg xt kernel w A jobz m n Hshape Hm Hn Hi Hr.
  assert (Hiwork : to_size_t cfg (8 * Z.min m n) = 8 * Z.min m n)
    by (apply to_size_t_small; lia).
  pose proof (complex_gesdd_rwork cfg jobz m n Hm Hn Hr) as Hrwork.
  split; intros;
    match goal with H : In _ _ |- _ => revert H end;
    runs; read_off; rewrite Hshape in *; cbn [at_ nth_error] in *; read_off;
    first [ exact (f_equal (fun x => Some ({| usize := x |}, @None Z)) Hiwork)
          | exact (f_equal (fun x => Some (x, @None Z)) Hrwork)
          | reflexivity ].
Qed.

(** The scratch of the complex [gesdd] on a square 3-by-3 matrix. *)
Lemma gesdd_auxiliary_scratch_witness :
  let A := Sample.container column_major [3; 3] in
  let probe := Sample.answer 0 {| re := (40 # 1)%Q; im := (0 # 1)%Q |} in
  shape A = [3; 3] /\ 0 <= 3 /\
  8 * Z.min 3 3 < 2 ^ size_bits (Sample.lp64 true) /\
  5 * Z.min 3 3 * Z.min 3 3 + 5 * Z.min 3 3 < 2 ^ size_bits (Sample.lp64 true) /\
  forall c r,
    In (c, r) (log_of (gesdd_complex (Sample.lp64 true) Sample.xtensor
                         (Sample.scripted probe probe) A "S" (0%nat, []))) ->
    iwork_of c = Some ({| usize := 8 * Z.min 3 3 |}, None) /\
    rwork_of c
    = Some ({| usize := if ("S" =? "N")%char then 5 * Z.min 3 3
                        else 5 * Z.min 3 3 * Z.min 3 3 + 5 * Z.min 3 3 |},
            None).
Proof.
  cbv zeta.
  assert (H0 : 0 <= 3) by lia.
  assert (Hi : 8 * Z.min 3 3 < 2 ^ size_bits (Sample.lp64 true))
    by (vm_compute; reflexivity).
  assert (Hr : 5 * Z.min 3 3 * Z.min 3 3 + 5 * Z.min 3 3
               < 2 ^ size_bits (Sample.lp64 true))
    by (vm_compute; reflexivity).
  split; [reflexivity |]. split; [exact H0 |].
  split; [exact Hi |]. split; [exact Hr |].
  exact (proj2 (gesdd_auxiliary_scratch (complex Q) nat (Sample.lp64 true)
                  Sample.xtensor
                  (Sample.scripted
                     (Sample.answer 0 {| re := (40 # 1)%Q; im := (0 # 1)%Q |})
                     (Sample.answer 0 {| re := (40 # 1)%Q; im := (0 # 1)%Q |}))
                  0%nat (Sample.container column_major [3; 3]) "S" 3 3
                  eq_refl H0 H0 Hi Hr)
           complex_Scalar).
Defined.

(** ** Leading dimensions of [gesdd] *)

Lemma init_u_vt_strides_nonzero (cfg : config) (xt : array_library)
    (u0 vt0 : xexpression) (jobz : ascii) (m n : Z)
    (u vt : xexpression) (ldu ldvt : Z) :
  init_u_vt cfg xt u0 vt0 jobz m n = Some (u, vt, (ldu, ldvt)) ->
  Forall (Ints.fits_signed (int_bits cfg)) (strides u) ->
  Forall (Ints.fits_signed (int_bits cfg)) (strides vt) ->
  ldu <> 0 /\ ldvt <> 0.
Proof.
  unfold init_u_vt.
  set (u1 := if (jobz =? "S")%char then _ else _).
  set (vt1 := if (jobz =? "S")%char then _ else _).
  intros Hinit Hu Hvt.
  destruct (jobz =? "N")%char.
  - inversion Hinit; subst. split; discriminate.
  - destruct (jobz =? "O")%char.
    + destruct (n <=? m).
      * destruct (back (strides vt1)) as [sv |] eqn:Hsv; [| discriminate].
        inversion Hinit; subst. split; [discriminate |].
        apply select_stride_fits. exact (back_Forall _ _ _ Hvt Hsv).
      * destruct (back (strides u1)) as [su |] eqn:Hsu; [| discriminate].
        inversion Hinit; subst. split; [| discriminate].
        apply select_stride_fits. exact (back_Forall _ _ _ Hu Hsu).
    + destruct (back (strides u1)) as [su |] eqn:Hsu; [| discriminate].
      destruct (back (strides vt1)) as [sv |] eqn:Hsv; [| discriminate].
      inversion Hinit; subst. split; apply select_stride_fits.
      * exact (back_Forall _ _ _ Hu Hsu).
      * exact (back_Forall _ _ _ Hvt Hsv).
Qed.

(** No leading dimension that [gesdd] passes is 0: that of [A], and those of
    [u] and [vt] in every job mode, sized or not, whenever the strides fit
    the index type. *)
Theorem gesdd_leading_dimensions_nonzero :
  forall (T World : Type) (cfg : config) (xt : array_library)
         (kernel : call T -> World -> reply T * World) (w : World)
         (A : xexpression) (jobz : ascii),
    Forall (Ints.fits_signed (int_bits cfg)) (strides A) ->
    (forall (TA : Arithmetic T) c r u ldu vt ldvt,
        In (c, r) (log_of (gesdd cfg xt kernel A jobz (w, []))) ->
        svd_outputs c = Some (u, ldu, vt, ldvt) ->
        Forall (Ints.fits_signed (int_bits cfg)) (strides u) ->
        Forall (Ints.fits_signed (int_bits cfg)) (strides vt) ->
        ldu <> 0 /\ ldvt <> 0 /\ exists lda, lda_of c = Some lda /\ lda <> 0) /\
    (forall (TS : Scalar T) c r u ldu vt ldvt,
        In (c, r) (log_of (gesdd_complex cfg xt kernel A jobz (w, []))) ->
        svd_outputs c = Some (u, ldu, vt, ldvt) ->
        Forall (Ints.fits_signed (int_bits cfg)) (strides u) ->
        Forall (Ints.fits_signed (int_bits cfg)) (strides vt) ->
        ldu <> 0 /\ ldvt <> 0 /\ exists lda, lda_of c = Some lda /\ lda <> 0).
Proof.
  intros T World cfg xt kernel w A jobz HA.
  split; intros ? c r u ldu vt ldvt Hin; revert Hin;
    runs; read_off;
    match goal with
    | Hout : svd_outputs _ = Some _ |- _ =>
        cbn [svd_outputs] in Hout; inversion Hout; subst
    end;
    match goal with
    | Hinit : init_u_vt _ _ _ _ _ _ _ = Some (?u, ?vt, _),
      Hu : Forall _ (strides ?u), Hvt : Forall _ (strides ?vt),
      Hback : back (strides A) = Some ?sb |- _ =>
        destruct (init_u_vt_strides_nonzero _ _ _ _ _ _ _ _ _ _ _
                    Hinit Hu Hvt) as [Hldu Hldvt];
        try (split; [exact Hldu |]); try (split; [exact Hldvt |]);
        first [ exact Hldu | exact Hldvt
              | eexists; split; [reflexivity |];
                apply select_stride_fits; exact (back_Forall _ _ _ HA Hback) ]
    end.
Qed.

(** The three leading dimensions of a 1-by-3 matrix in mode 'S', where the
    last strides of [u] and [vt] are 0 and 1. *)
Lemma gesdd_leading_dimensions_nonzero_witness :
  let A := Sample.container column_major [1; 3] in
  let ok := Sample.answer 0 (12 # 1)%Q in
  let u := Sample.container column_major [1; 1] in
  let vt := Sample.container column_major [1; 3] in
  let s := Sample.container column_major [1] in
  let probe := cxx_gesdd "S" 1 3 A 1 s u 1 vt 1 {| usize := 1 |} (-1) None
                 {| usize := 8 |} in
  Forall (Ints.fits_signed 32) (strides A) /\
  strides u = [0; 0] /\
  In (probe, ok)
    (log_of (gesdd (Sample.lp64 true) Sample.xtensor (Sample.scripted ok ok) A
               "S" (0%nat, []))) /\
  (1 <> 0 /\ 1 <> 0 /\ exists lda, lda_of probe = Some lda /\ lda <> 0).
Proof.
  cbv zeta.
  assert (Hfits : forall l, l = [0; 0] \/ l = [0; 1] ->
                            Forall (Ints.fits_signed 32) l).
  { intros l [-> | ->]; repeat constructor; unfold Ints.fits_signed; simpl; lia. }
  assert (HA : Forall (Ints.fits_signed 32)
                 (strides (Sample.container column_major [1; 3])))
    by (apply Hfits; right; reflexivity).
  assert (Hu : Forall (Ints.fits_signed 32)
                 (strides (Sample.container column_major [1; 1])))
    by (apply Hfits; left; reflexivity).
  assert (Hin : In (cxx_gesdd "S" 1 3 (Sample.container column_major [1; 3]) 1
                      (Sample.container column_major [1])
                      (Sample.container column_major [1; 1]) 1
                      (Sample.container column_major [1; 3]) 1
                      {| usize := 1 |} (-1) None {| usize := 8 |},
                    Sample.answer 0 (12 # 1)%Q)
                  (log_of (gesdd (Sample.lp64 true) Sample.xtensor
                             (Sample.scripted (Sample.answer 0 (12 # 1)%Q)
                                              (Sample.answer 0 (12 # 1)%Q))
                             (Sample.container column_major [1; 3]) "S"
                             (0%nat, []))))
    by (vm_compute; left; reflexivity).
  split; [exact HA |]. split; [reflexivity |]. split; [exact Hin |].
  exact (proj1 (gesdd_leading_dimensions_nonzero Q nat (Sample.lp64 true)
                  Sample.xtensor
                  (Sample.scripted (Sample.answer 0 (12 # 1)%Q)
                                   (Sample.answer 0 (12 # 1)%Q))
                  0%nat (Sample.container column_major [1; 3]) "S" HA)
           Q_Arithmetic _ _ _ _ _ _ Hin eq_refl Hu HA).
Defined.

Lemma init_u_vt_unknown_mode (cfg : config) (xt : array_library)
    (u0 vt0 : xexpression) (jobz : ascii) (m n : Z)
    (u vt : xexpression) (lds : Z * Z) :
  jobz <> "A"%char -> jobz <> "N"%char -> jobz <> "O"%char -> jobz <> "S"%char ->
  init_u_vt cfg xt u0 vt0 jobz m n = Some (u, vt, lds) ->
  u = u0 /\ vt = vt0 /\
  exists su sv,
    back (strides u0) = Some su /\ back (strides vt0) = Some sv /\
    lds = (select_stride cfg su, select_stride cfg sv).
Proof.
  intros HA HN HO HS. unfold init_u_vt.
  rewrite (proj2 (Ascii.eqb_neq _ _) HA), (proj2 (Ascii.eqb_neq _ _) HN),
    (proj2 (Ascii.eqb_neq _ _) HO), (proj2 (Ascii.eqb_neq _ _) HS).
  cbn [orb andb].
  destruct (back (strides u0)) as [su |]; [| discriminate].
  destruct (back (strides vt0)) as [sv |]; [| discriminate].
  intros Hinit. inversion Hinit; subst.
  split; [reflexivity |]. split; [reflexivity |].
  exists su, sv. repeat split.
Qed.

(** [gesdd] does not validate its job mode: with a character other than
    'A', 'N', 'O' and 'S' it still calls the kernel, with [u] and [vt] as
    they were constructed, sized by nothing, and led by strides selected
    from theirs. *)
Theorem unknown_job_mode_sizes_nothing :
  forall (T World : Type) (cfg : config) (xt : array_library)
         (kernel : call T -> World -> reply T * World) (w : World)
         (A : xexpression) (jobz : ascii),
    jobz <> "A"%char -> jobz <> "N"%char ->
    jobz <> "O"%char -> jobz <> "S"%char ->
    let unsized := default_container xt 2 column_major in
    (forall (TA : Arithmetic T) c r,
        In (c, r) (log_of (gesdd cfg xt kernel A jobz (w, []))) ->
        exists ld,
          back (strides unsized) = Some ld /\
          svd_outputs c
          = Some (unsized, select_stride cfg ld, unsized, select_stride cfg ld)) /\
    (forall (TS : Scalar T) c r,
        In (c, r) (log_of (gesdd_complex cfg xt kernel A jobz (w, []))) ->
        exists ld,
          back (strides unsized) = Some ld /\
          svd_outputs c
          = Some (unsized, select_stride cfg ld, unsized, select_stride cfg ld)).
Proof.
  intros T World cfg xt kernel w A jobz HA HN HO HS unsized. subst unsized.
  split; intros ? c r Hin; revert Hin;
    runs; read_off;
    match goal with
    | Hinit : init_u_vt _ _ _ _ _ _ _ = Some _ |- _ =>
        destruct (init_u_vt_unknown_mode _ _ _ _ _ _ _ _ _ _ HA HN HO HS Hinit)
          as (-> & -> & su & sv & Hsu & Hsv & Hlds);
        rewrite Hsu in Hsv; inversion Hsv; subst sv;
        inversion Hlds; subst;
        exists su; split; [exact Hsu | reflexivity]
    end.
Qed.

(** The real [gesdd] in the unknown mode 'X' on a 3-by-2 matrix. *)
Lemma unknown_job_mode_sizes_nothing_witness :
  let A := Sample.container column_major [3; 2] in
  let ok := Sample.answer 0 (30 # 1)%Q in
  let unsized := default_container Sample.xtensor 2 column_major in
  "X"%char <> "A"%char /\
  log_of (gesdd (Sample.lp64 true) Sample.xtensor (Sample.scripted ok ok) A "X"
            (0%nat, []))
  <> [] /\
  forall c r,
    In (c, r) (log_of (gesdd (Sample.lp64 true) Sample.xtensor
                         (Sample.scripted ok ok) A "X" (0%nat, []))) ->
    exists ld,
      back (strides unsized) = Some ld /\
      svd_outputs c
      = Some (unsized, select_stride (Sample.lp64 true) ld,
              unsized, select_stride (Sample.lp64 true) ld).
Proof.
  cbv zeta.
  assert (HA : "X"%char <> "A"%char) by discriminate.
  assert (HN : "X"%char <> "N"%char) by discriminate.
  assert (HO : "X"%char <> "O"%char) by discriminate.
  assert (HS : "X"%char <> "S"%char) by discriminate.
  split; [exact HA |]. split; [vm_compute; discriminate |].
  exact (proj1 (unknown_job_mode_sizes_nothing Q nat (Sample.lp64 true)
                  Sample.xtensor
                  (Sample.scripted (Sample.answer 0 (30 # 1)%Q)
                                   (Sample.answer 0 (30 # 1)%Q))
                  0%nat (Sample.container column_major [3; 2]) "X"
                  HA HN HO HS)
           Q_Arithmetic).
Defined.

(** ** Guards of the products *)

Lemma view_eval_dimension (xt : array_library) (l : layout_type) (e : xexpression) :
  dimension (view_eval xt l e) = dimension e.
Proof. unfold dimension. rewrite view_eval_shape. reflexivity. Qed.

(** With assertions on, [gemm] refuses an operand that is not
    two-dimensional before any kernel call. *)
Theorem gemm_refuses_operands_not_2d :
  forall (T World : Type) (cfg : config) (xt : array_library)
         (kernel : call T -> World -> reply T * World) (w : World)
         (A B result : xexpression) (transpose_A transpose_B : ascii)
         (alpha beta : T),
    enable_assert cfg = true ->
    layout result <> dynamic ->
    dimension A <> 2 \/ dimension B <> 2 ->
    refused_by_assertion
      (gemm cfg xt kernel A B result transpose_A transpose_B alpha beta (w, [])).
Proof.
  intros T World cfg xt kernel w A B result tA tB alpha beta Hon Hstatic Hbad.
  unfold refused_by_assertion, gemm, XTENSOR_ASSERT.
  destruct (layout_eqb (layout result) dynamic) eqn:Hdyn;
    [apply layout_eqb_eq in Hdyn; contradiction |].
  rewrite Hon, !view_eval_layout, !layout_eqb_refl, !view_eval_dimension.
  cbn [negb andb].
  destruct (Z.eqb_spec (dimension A) 2) as [HA | HA];
    [destruct (Z.eqb_spec (dimension B) 2) as [HB | HB];
     [destruct Hbad; contradiction |] |];
    split; reflexivity.
Qed.

(** [gemm] handed a vector as its second operand. *)
Lemma gemm_refuses_operands_not_2d_witness :
  let A := Sample.container row_major [2; 3] in
  let x := Sample.container row_major [3] in
  let C := Sample.container row_major [2; 1] in
  let ok := Sample.answer 0 (0 # 1)%Q in
  enable_assert (Sample.lp64 true) = true /\
  layout C <> dynamic /\ dimension x <> 2 /\
  refused_by_assertion
    (gemm (Sample.lp64 true) Sample.xtensor (Sample.scripted ok ok)
       A x C zero zero (1 # 1)%Q (0 # 1)%Q (0%nat, [])).
Proof.
  cbv zeta.
  assert (Hstatic : layout (Sample.container row_major [2; 1]) <> dynamic)
    by discriminate.
  assert (Hx : dimension (Sample.container row_major [3]) <> 2) by discriminate.
  split; [reflexivity |]. split; [exact Hstatic |]. split; [exact Hx |].
  exact (gemm_refuses_operands_not_2d Q nat (Sample.lp64 true) Sample.xtensor
           (Sample.scripted (Sample.answer 0 (0 # 1)%Q)
                            (Sample.answer 0 (0 # 1)%Q))
           0%nat (Sample.container row_major [2; 3])
           (Sample.container row_major [3]) (Sample.container row_major [2; 1])
           zero zero (1 # 1)%Q (0 # 1)%Q eq_refl Hstatic (or_intror Hx)).
Defined.

(** Follow a run of [asum], [nrm2], [gemv] or [ger] to each of its ends. *)
Ltac blas_run_in H :=
  unfold asum, nrm2, gemv, ger in H;
  unfold xtensor_assert, lift, blas_invoke in H;
  unfold bind, ret, throw in H; cbn beta iota zeta in H;
  repeat (lazymatch type of H with
          | ?lhs = _ =>
              let h := head_of lhs in
              tryif constr_eq h lhs then fail
              else (destruct h eqn:?; cbn beta iota zeta in H)
          end).

Ltac blas_runs :=
  let res := fresh "res" in
  let Hres := fresh "Hres" in
  match goal with
  | |- context [?f (?w, @nil ?E)] =>
      remember (f (w, @nil E)) as res eqn:Hres; symmetry in Hres;
      blas_run_in Hres; subst res
  end.

(** With assertions on, [asum] and [nrm2] refuse an operand that is not
    one-dimensional, and [ger] refuses one when either of its two vectors is
    not, before any kernel call. *)
Theorem level1_refuses_operands_not_1d :
  forall (T World : Type) (cfg : config) (xt : array_library)
         (default_layout : layout_type)
         (kernel : blas_call T -> World -> World) (w : World)
         (a : xexpression),
    enable_assert cfg = true ->
    dimension a <> 1 ->
    asum cfg xt kernel a (w, []) = (Raised assertion_failure, (w, [])) /\
    nrm2 cfg xt kernel a (w, []) = (Raised assertion_failure, (w, [])) /\
    (forall y result alpha,
        ger cfg xt default_layout kernel a y result alpha (w, [])
        = (Raised assertion_failure, (w, []))) /\
    (forall x result alpha,
        ger cfg xt default_layout kernel x a result alpha (w, [])
        = (Raised assertion_failure, (w, []))).
Proof.
  intros T World cfg xt default_layout kernel w a Hon Hbad.
  assert (Hne : (dimension a =? 1) = false) by (apply Z.eqb_neq; exact Hbad).
  repeat match goal with |- _ /\ _ => split end; intros;
    unfold asum, nrm2, ger, xtensor_assert;
    rewrite Hon, !view_eval_dimension, Hne; cbn [negb andb];
    try reflexivity.
  destruct (dimension x =? 1); reflexivity.
Qed.

(** [asum] of a matrix. *)
Lemma level1_refuses_operands_not_1d_witness :
  let a := Sample.container row_major [2; 2] in
  enable_assert (Sample.lp64 true) = true /\ dimension a <> 1 /\
  asum (T := Q) (Sample.lp64 true) Sample.xtensor counting_kernel a (0%nat, [])
  = (Raised assertion_failure, (0%nat, [])).
Proof.
  cbv zeta.
  assert (Ha : dimension (Sample.container row_major [2; 2]) <> 1)
    by discriminate.
  split; [reflexivity |]. split; [exact Ha |].
  exact (proj1 (level1_refuses_operands_not_1d Q nat (Sample.lp64 true)
                  Sample.xtensor row_major counting_kernel 0%nat
                  (Sample.container row_major [2; 2]) eq_refl Ha)).
Defined.

(** [gemv] asserts nothing, and it passes the two dimensions of [A] as they
    are, rows first, whether or not [A] is to be transposed: the flag changes
    the transposition argument alone. *)
Theorem gemv_passes_dimensions_of_A :
  forall (T World : Type) (cfg : config) (xt : array_library)
         (kernel : blas_call T -> World -> World) (w : World)
         (A x result : xexpression) (transpose_A : bool) (alpha beta : T)
         (rows columns : Z),
    at_ (shape A) 0 = Some rows ->
    at_ (shape A) 1 = Some columns ->
    fst (gemv cfg xt kernel A x result transpose_A alpha beta (w, []))
    <> Raised assertion_failure /\
    forall c,
      In c (snd (snd (gemv cfg xt kernel A x result transpose_A alpha beta
                        (w, [])))) ->
      gemv_dimensions c
      = Some (if transpose_A then Trans else NoTrans,
              to_blas_idx cfg rows, to_blas_idx cfg columns).
Proof.
  intros T World cfg xt kernel w A x result flag alpha beta rows columns
         Hrows Hcolumns.
  blas_runs; cbn [fst snd app In]; (split; [discriminate |]);
    intros c Hin; try contradiction.
  destruct Hin as [<- | []].
  rewrite view_eval_shape in *. rewrite Hrows in *. rewrite Hcolumns in *.
  read_off. reflexivity.
Qed.

(** The transposed product of a 2-by-3 matrix with a vector. *)
Lemma gemv_passes_dimensions_of_A_witness :
  let A := Sample.container row_major [2; 3] in
  let x := Sample.container row_major [2] in
  let y := Sample.container row_major [3] in
  at_ (shape A) 0 = Some 2 /\ at_ (shape A) 1 = Some 3 /\
  snd (snd (gemv (Sample.lp64 true) Sample.xtensor counting_kernel A x y true
              (1 # 1)%Q (0 # 1)%Q (0%nat, [])))
  <> [] /\
  forall c,
    In c (snd (snd (gemv (Sample.lp64 true) Sample.xtensor counting_kernel
                      A x y true (1 # 1)%Q (0 # 1)%Q (0%nat, [])))) ->
    gemv_dimensions c
    = Some (Trans, to_blas_idx (Sample.lp64 true) 2,
            to_blas_idx (Sample.lp64 true) 3).
Proof.
  cbv zeta. split; [reflexivity |]. split; [reflexivity |].
  split; [vm_compute; discriminate |].
  exact (proj2 (gemv_passes_dimensions_of_A Q nat (Sample.lp64 true)
                  Sample.xtensor counting_kernel 0%nat
                  (Sample.container row_major [2; 3])
                  (Sample.container row_major [2])
                  (Sample.container row_major [3]) true (1 # 1)%Q (0 # 1)%Q
                  2 3 eq_refl eq_refl)).
Defined.

(** ** What the inner products read *)

Section Reading.

Context {F : Type}.
Variable zero_F : F.
Variables add_F sub_F mul_F : F -> F -> F.
Variable opp_F : F -> F.

(** A strided sum depends on its second buffer through the [k] elements it
    visits. *)
Lemma strided_sum_reads (prod : complex F -> complex F -> complex F) (k : nat)
    (x y y' : list (complex F)) (ox incx oy incy : Z) :
  (forall i, 0 <= i < Z.of_nat k ->
             read y (oy + i * incy) = read y' (oy + i * incy)) ->
  strided_sum zero_F add_F prod k x ox incx y oy incy
  = strided_sum zero_F add_F prod k x ox incx y' oy incy.
Proof.
  induction k as [| k IH]; intros Hsame; [reflexivity |].
  cbn [strided_sum]. rewrite IH by (intros i Hi; apply Hsame; lia).
  rewrite (Hsame (Z.of_nat k)) by lia. reflexivity.
Qed.

(** [dot] and [dotu] take the length from [a] alone.  Of [b] they read the
    first stride, the offset and the [n] elements these lead to: the shape of
    [b] and whatever its buffer holds elsewhere never matter. *)
Theorem inner_products_read_n_elements_of_b :
  forall (cfg : config) (a b b' : xcontainer (complex F)) (n inc : Z),
    at_ (shape (descr a)) 0 = Some n ->
    front (strides (descr b)) = Some inc ->
    front (strides (descr b')) = Some inc ->
    raw_data_offset (descr b') = raw_data_offset (descr b) ->
    (forall i, 0 <= i < to_blas_idx cfg n ->
       read (raw_data b') (raw_data_offset (descr b) + i * to_blas_idx cfg inc)
       = read (raw_data b) (raw_data_offset (descr b) + i * to_blas_idx cfg inc)) ->
    dot zero_F add_F sub_F mul_F opp_F cfg a b'
    = dot zero_F add_F sub_F mul_F opp_F cfg a b /\
    dotu zero_F add_F sub_F mul_F cfg a b'
    = dotu zero_F add_F sub_F mul_F cfg a b.
Proof.
  intros cfg a b b' n inc Hn Hinc Hinc' Hoff Hsame.
  unfold dot, dotu, view_eval_container, cxxblas_dot, cxxblas_dotu.
  rewrite Hn, Hinc, Hinc', Hoff.
  assert (Hread : forall i, 0 <= i < Z.of_nat (Z.to_nat (to_blas_idx cfg n)) ->
            read (raw_data b') (raw_data_offset (descr b) + i * to_blas_idx cfg inc)
            = read (raw_data b) (raw_data_offset (descr b) + i * to_blas_idx cfg inc))
    by (intros i Hi; apply Hsame; lia).
  split; destruct (enable_assert cfg && negb (dimension (descr a) =? 1));
    try reflexivity;
    destruct (front (strides (descr a))); try reflexivity;
    rewrite (strided_sum_reads _ _ _ (raw_data b') (raw_data b) _ _ _ _ Hread);
    reflexivity.
Qed.

(** The inner products of an empty vector are zero, whatever the second
    operand is. *)
Theorem inner_products_of_empty_vector :
  forall (cfg : config) (a b : xcontainer (complex F)),
    0 < blas_idx_bits cfg ->
    shape (descr a) = [0] ->
    strides (descr a) <> [] ->
    strides (descr b) <> [] ->
    dot zero_F add_F sub_F mul_F opp_F cfg a b = Returned (czero zero_F) /\
    dotu zero_F add_F sub_F mul_F cfg a b = Returned (czero zero_F).
Proof.
  intros cfg a b Hbits Hshape Ha Hb.
  destruct (front_nonempty _ Ha) as [sa Hsa].
  destruct (front_nonempty _ Hb) as [sb Hsb].
  assert (Hzero : to_blas_idx cfg 0 = 0).
  { unfold to_blas_idx. apply wrap_signed_fits. unfold Ints.fits_signed.
    assert (0 < 2 ^ (blas_idx_bits cfg - 1)) by (apply Z.pow_pos_nonneg; lia).
    lia. }
  unfold dot, dotu, view_eval_container, cxxblas_dot, cxxblas_dotu, dimension.
  rewrite Hshape, Hsa, Hsb. cbn [List.length Z.of_nat at_ nth_error].
  rewrite Hzero. cbn [Z.eqb Pos.eqb negb Z.to_nat strided_sum].
  rewrite andb_false_r. split; reflexivity.
Qed.

End Reading.

(** A second operand with a longer buffer and another shape. *)
Lemma inner_products_read_n_elements_of_b_witness :
  let a := Sample.vector [Sample.Zi 1 2; Sample.Zi 3 4] in
  let b := Sample.vector [Sample.Zi 0 1; Sample.Zi 5 6] in
  let b' := with_shape [7; 7]
              (Sample.vector [Sample.Zi 0 1; Sample.Zi 5 6; Sample.Zi 9 9]) in
  at_ (shape (descr a)) 0 = Some 2 /\
  front (strides (descr b')) = Some 1 /\
  dot 0 Z.add Z.sub Z.mul Z.opp (Sample.lp64 true) a b'
  = dot 0 Z.add Z.sub Z.mul Z.opp (Sample.lp64 true) a b.
Proof.
  cbv zeta. split; [reflexivity |]. split; [reflexivity |].
  refine (proj1 (inner_products_read_n_elements_of_b 0 Z.add Z.sub Z.mul Z.opp
                   (Sample.lp64 true)
                   (Sample.vector [Sample.Zi 1 2; Sample.Zi 3 4])
                   (Sample.vector [Sample.Zi 0 1; Sample.Zi 5 6])
                   (with_shape [7; 7]
                      (Sample.vector [Sample.Zi 0 1; Sample.Zi 5 6; Sample.Zi 9 9]))
                   2 1 eq_refl eq_refl eq_refl eq_refl _)).
  intros i Hi. change (to_blas_idx (Sample.lp64 true) 2) with 2 in Hi.
  assert (Hcases : i = 0 \/ i = 1) by lia.
  destruct Hcases as [-> | ->]; reflexivity.
Defined.

(** The inner product of an empty vector with a vector of two elements. *)
Lemma inner_products_of_empty_vector_witness :
  let a := Sample.vector [] in
  let b := Sample.vector [Sample.Zi 0 1; Sample.Zi 5 6] in
  0 < blas_idx_bits (Sample.lp64 true) /\ shape (descr a) = [0] /\
  dot 0 Z.add Z.sub Z.mul Z.opp (Sample.lp64 true) a b = Returned (czero 0).
Proof.
  cbv zeta.
  assert (Hbits : 0 < blas_idx_bits (Sample.lp64 true)) by (simpl; lia).
  split; [exact Hbits |]. split; [reflexivity |].
  refine (proj1 (inner_products_of_empty_vector 0 Z.add Z.sub Z.mul Z.opp
                   (Sample.lp64 true) (Sample.vector [])
                   (Sample.vector [Sample.Zi 0 1; Sample.Zi 5 6])
                   Hbits eq_refl _ _)); discriminate.
Defined.

(** ** The workspace query *)

Lemma front_None {A : Type} (l : list A) : front l = None -> l = [].
Proof. destruct l; [reflexivity | discriminate]. Qed.

(** What a run contradicts when it stops short although its arguments were
    ready, or goes on although a size did not convert. *)
Ltac stopped_short :=
  repeat match goal with
         | H : _ /\ _ |- _ => destruct H
         | H : exists _, _ |- _ => destruct H
         | H : matrix_with_strides _ |- _ => unfold matrix_with_strides in H
         | H : passes_assertions _ _ |- _ => unfold passes_assertions in H
         end;
  match goal with
  | H0 : info ?r = 0, Hb : negb (info ?r =? 0) = true |- _ =>
      rewrite H0 in Hb; discriminate Hb
  | H0 : info ?r = 0, Hb : (0 <? info ?r) = true |- _ =>
      rewrite H0 in Hb; discriminate Hb
  | Hs : ?x = Some _, Hn : ?x = None |- _ =>
      rewrite Hs in Hn; discriminate Hn
  | Hs : ?x <> None, Hn : ?x = None |- _ => contradiction
  | Hs : shape ?A = [_; _], H : at_ (shape ?A) _ = None |- _ =>
      rewrite Hs in H; discriminate H
  | Hs : shape ?A = [_; _],
    H : _ && negb (dimension ?A =? 2) = true |- _ =>
      unfold dimension in H; rewrite Hs in H; cbn in H;
      rewrite andb_false_r in H; discriminate H
  | Hl : enable_assert ?cfg = true -> layout ?A = column_major,
    H : enable_assert ?cfg && negb (layout_eqb (layout ?A) column_major) = true |- _ =>
      apply andb_true_iff in H; destruct H as [Hon H];
      rewrite (Hl Hon) in H; discriminate H
  | Hn : ?l <> [], H : back ?l = None |- _ =>
      apply back_None in H; contradiction
  | Hn : ?l <> [], H : front ?l = None |- _ =>
      apply front_None in H; contradiction
  | Hs : shape ?A = [_; _],
    Hrows : at_ (shape ?A) 0 = Some ?z,
    Hcolumns : at_ (shape ?A) 1 = Some ?z0,
    H : init_u_vt _ _ _ _ _ ?z ?z0 = None |- _ =>
      rewrite Hs in Hrows, Hcolumns; cbn [at_ nth_error] in Hrows, Hcolumns;
      inversion Hrows; inversion Hcolumns; subst;
      exfalso;
      match goal with
      | Hi : forall m n : Z, _ |- _ => exact (Hi _ _ Hs H)
      end
  end.

(** The scratch handed over, once the run is known to have made both calls. *)
Ltac handed_over :=
  unfold probed_size in *;
  repeat match goal with
         | Hs : ?x = Some ?a, Hs' : ?x = Some ?b |- _ =>
             rewrite Hs in Hs'; inversion Hs'; clear Hs'; subst
         end;
  repeat eexists; try eassumption; try reflexivity; cbn; lia.

(** C7. In every wrapper with a workspace query: with arguments it can read
    the probe is made; after a probe that reported success and left sizes
    that convert, the execute-phase call is made, once, with a scratch
    vector of exactly the length that the probe left in the first scratch
    element (its real part for the complex kernels), never less, with that
    length as its scratch-size argument, and its status is returned; a
    successful probe stays the only call just when a size does not
    convert. *)
Theorem scratch_has_probed_size :
  forall (T World : Type) (cfg : config) (xt : array_library)
         (kernel : call T -> World -> reply T * World) (w : World),
    let always := fun _ : reply T => True in
    let real_size := fun r : reply T => float_to_size_t cfg (rwork0 r) <> None in
    let sizable (A : xexpression) (jobz : ascii) :=
      forall m n, shape A = [m; n] ->
        init_u_vt cfg xt (default_container xt 2 column_major)
          (default_container xt 2 column_major) jobz m n <> None in
    (forall (TS : Scalar T) A tau,
        scratch_as_probed cfg (probed_size cfg std_real) always (fun i => i)
          (matrix_with_strides A /\ passes_assertions cfg A)
          (geqrf cfg kernel A tau (w, []))) /\
    (forall (TA : Arithmetic T) A tau n,
        scratch_as_probed cfg (probed_size cfg to_real) always (fun i => i)
          (matrix_with_strides A)
          (orgqr cfg kernel A tau n (w, []))) /\
    (forall (TS : Scalar T) A tau n,
        scratch_as_probed cfg (probed_size cfg std_real) always (fun i => i)
          (matrix_with_strides A)
          (ungqr cfg kernel A tau n (w, []))) /\
    (forall (TA : Arithmetic T) A piv,
        scratch_as_probed cfg (probed_size cfg to_real) always (fun i => i)
          (matrix_with_strides A /\ passes_assertions cfg A)
          (getri cfg kernel A piv (w, []))) /\
    (forall (TA : Arithmetic T) A jobz,
        scratch_as_probed cfg (probed_size cfg to_real) always
          (fun x => fst (fst (fst x)))
          (matrix_with_strides A /\ passes_assertions cfg A /\ sizable A jobz)
          (gesdd cfg xt kernel A jobz (w, []))) /\
    (forall (TS : Scalar T) A jobz,
        scratch_as_probed cfg (probed_size cfg std_real) always
          (fun x => fst (fst (fst x)))
          (matrix_with_strides A /\ passes_assertions cfg A /\ sizable A jobz)
          (gesdd_complex cfg xt kernel A jobz (w, []))) /\
    (forall (TA : Arithmetic T) A jobvl jobvr wr wi VL VR,
        scratch_as_probed cfg (probed_size cfg to_real) always (fun i => i)
          (matrix_with_strides A /\ passes_assertions cfg A /\
           strides VL <> [] /\ strides VR <> [])
          (geev cfg kernel A jobvl jobvr wr wi VL VR (w, []))) /\
    (forall (TS : Scalar T) A jobvl jobvr ev VL VR,
        scratch_as_probed cfg (probed_size cfg std_real) always (fun i => i)
          (matrix_with_strides A /\ passes_assertions cfg A /\
           strides VL <> [] /\ strides VR <> [])
          (geev_complex cfg kernel A jobvl jobvr ev VL VR (w, []))) /\
    (forall (TA : Arithmetic T) A jobz uplo ev,
        scratch_as_probed cfg (probed_size cfg to_real) always (fun i => i)
          (matrix_with_strides A /\ passes_assertions cfg A)
          (syevd cfg kernel A jobz uplo ev (w, []))) /\
    (forall (TS : Scalar T) A jobz uplo ev,
        scratch_as_probed cfg (probed_size cfg std_real) real_size (fun i => i)
          (matrix_with_strides A /\ passes_assertions cfg A)
          (heevd cfg kernel A jobz uplo ev (w, []))) /\
    (forall (TA : Arithmetic T) A b s rcond,
        scratch_as_probed cfg (probed_size cfg to_real) always (fun i => i)
          (matrix_with_strides A /\ shape b <> [] /\ strides b <> [])
          (gelsd cfg kernel A b s rcond (w, []))) /\
    (forall (TS : Scalar T) A b s rcond,
        scratch_as_probed cfg (probed_size cfg std_real) real_size (fun i => i)
          (matrix_with_strides A /\ shape b <> [] /\ strides b <> [])
          (gelsd_complex cfg kernel A b s rcond (w, []))).
Proof.
  intros T World cfg xt kernel w always real_size sizable.
  subst always real_size sizable.
  repeat match goal with |- _ /\ _ => split end; intros;
    unfold scratch_as_probed;
    runs; read_off; unfold probed_size in *; try reflexivity;
    try solve [discriminate];
    try solve [stopped_short];
    try solve [handed_over];
    try solve [left; unfold probed_size; assumption];
    try solve [right; intros Hsize; apply Hsize; assumption].
Qed.

(** The workspace query of [geqrf] on a 4-by-3 matrix whose probe asks for
    96 elements. *)
Lemma scratch_has_probed_size_witness :
  let A := Sample.container column_major [4; 3] in
  let tau := Sample.container column_major [3] in
  let probe := Sample.answer 0 (96 # 1)%Q in
  let exec := Sample.answer 5 (0 # 1)%Q in
  let res := geqrf (Sample.lp64 true) (Sample.scripted probe exec) A tau
               (0%nat, []) in
  (matrix_with_strides A /\ passes_assertions (Sample.lp64 true) A) /\
  log_of res <> [] /\
  exists (c2 : call Q) (r2 : reply Q) (x : Z),
    [(cxx_geqrf 4 3 A 4 tau {| usize := 96 |} 96, exec)] = [(c2, r2)] /\
    work_of c2 = Some {| usize := 96 |} /\
    lwork_of c2 = Some (to_index (Sample.lp64 true) 96) /\
    outcome_of res = Returned x /\ x = info r2.
Proof.
  cbv zeta.
  assert (Hready : matrix_with_strides (Sample.container column_major [4; 3]) /\
                   passes_assertions (Sample.lp64 true)
                     (Sample.container column_major [4; 3])).
  { split; [split; [exists 4, 3; reflexivity | discriminate] |].
    intros _. reflexivity. }
  assert (Hlog : log_of (geqrf (Sample.lp64 true)
                           (Sample.scripted (Sample.answer 0 (96 # 1)%Q)
                                            (Sample.answer 5 (0 # 1)%Q))
                           (Sample.container column_major [4; 3])
                           (Sample.container column_major [3]) (0%nat, []))
                 = (cxx_geqrf 4 3 (Sample.container column_major [4; 3]) 4
                      (Sample.container column_major [3]) {| usize := 1 |} (-1),
                    Sample.answer 0 (96 # 1)%Q)
                   :: [(cxx_geqrf 4 3 (Sample.container column_major [4; 3]) 4
                          (Sample.container column_major [3])
                          {| usize := 96 |} 96,
                        Sample.answer 5 (0 # 1)%Q)])
    by (vm_compute; reflexivity).
  assert (Hprobed : probed_size (Sample.lp64 true) std_real
                      (Sample.answer 0 (96 # 1)%Q) = Some 96)
    by (vm_compute; reflexivity).
  pose proof (scratch_has_probed_size Q nat (Sample.lp64 true) Sample.xtensor
                (Sample.scripted (Sample.answer 0 (96 # 1)%Q)
                                 (Sample.answer 5 (0 # 1)%Q))
                0%nat) as Hall.
  cbv zeta in Hall. destruct Hall as [Hgeqrf _].
  destruct (Hgeqrf Q_Scalar (Sample.container column_major [4; 3])
              (Sample.container column_major [3]))
    as (_ & _ & Hmade & Hexecuted).
  split; [exact Hready |]. split; [exact (Hmade Hready) |].
  exact (Hexecuted _ _ _ _ Hlog eq_refl Hprobed I).
Defined.
